(** * Job lifecycle of the CSV ingestion pipeline

    A shallow embedding of the Lambda handlers of the repository

    - [validator/handler.py]            (module [Validator]),
    - [processor/handler.py]            (module [Processor]),
    - [validator_processor/handler.py]  (module [Monolith]),
    - [api_reader/handler.py]           (module [ApiReader]),

    over a model of the services they call (the DynamoDB jobs table, the S3
    bucket, the SQS queue, the clock), followed by the properties of the job
    record that the specification states.

    Text is modelled by Rocq strings, one character per code point (code
    points below 256).  The S3 store holds the decoded text of its objects;
    a failure of [get_object], of [read] or of [decode] is a failure of the
    fetch. *)

From Stdlib Require Import ZArith Ascii String.
From stdpp Require Import gmap strings list fin_maps pretty.

Local Open Scope string_scope.

(* ===================================================================== *)
(** * Python values used by the handlers *)
(* ===================================================================== *)

Module Py.

(** Truthiness of [str | None], as tested by [if key:], [not bucket] and
    [row.get(col)] inside [all(...)]. *)
Definition truthy (o : option string) : bool :=
  match o with
  | Some s => negb (String.eqb s EmptyString)
  | None => false
  end.

(** [str(x)] of a [str | None] inside an f-string. *)
Definition str_opt (o : option string) : string :=
  match o with
  | Some s => s
  | None => "None"
  end.

(** [repr] of a column name: the names are those of [REQUIRED_COLUMNS],
    which hold no quote and no backslash. *)
Definition repr_name (s : string) : string := "'" ++ s ++ "'".

Fixpoint join (sep : string) (l : list string) : string :=
  match l with
  | [] => EmptyString
  | [x] => x
  | x :: rest => x ++ sep ++ join sep rest
  end.

(** [repr] of a list of column names, as [f"{missing}"] prints it. *)
Definition repr_names (l : list string) : string :=
  "[" ++ join ", " (map repr_name l) ++ "]".

(** [str(n)] of a non-negative [int]. *)
Definition str_nat (n : nat) : string := pretty n.

(** ** [os.path] (posixpath) *)

(** [p[p.rfind(c)+1:]], written as a scan that restarts after each [c]. *)
Fixpoint after_last (c : ascii) (p : string) : string :=
  match p with
  | EmptyString => EmptyString
  | String a rest =>
      if Ascii.eqb a c
      then (if existsb (Ascii.eqb c) (list_ascii_of_string rest)
            then after_last c rest else rest)
      else (if existsb (Ascii.eqb c) (list_ascii_of_string rest)
            then after_last c rest else p)
  end.

(** [os.path.basename]. *)
Definition basename (p : string) : string := after_last "/" p.

(** Index of the last [c] in [s], if any ([s.rfind(c)]). *)
Fixpoint rfind (c : ascii) (s : string) : option nat :=
  match s with
  | EmptyString => None
  | String a rest =>
      match rfind c rest with
      | Some i => Some (S i)
      | None => if Ascii.eqb a c then Some 0 else None
      end
  end.

Fixpoint all_dots (s : string) : bool :=
  match s with
  | EmptyString => true
  | String a rest => Ascii.eqb a "." && all_dots rest
  end.

(** [os.path.splitext(p)[0]] ([genericpath._splitext]): the extension
    starts at the last dot after the last separator, unless only dots
    precede it in the file name. *)
Definition splitext_root (p : string) : string :=
  let sep_index := rfind "/" p in
  let file_start := match sep_index with Some i => S i | None => 0 end in
  match rfind "." p with
  | Some dot_index =>
      if decide (file_start <= dot_index)%nat
      then
        if all_dots (substring file_start (dot_index - file_start) p)
        then p
        else substring 0 dot_index p
      else p
  | None => p
  end.

End Py.

(* ===================================================================== *)
(** * The [csv] module: reader of the excel dialect and [DictReader] *)
(* ===================================================================== *)

Module Csv.

(** States of the reader that the excel dialect can reach (it has no
    escape character). *)
Inductive ParserState :=
| START_RECORD | START_FIELD | IN_FIELD | IN_QUOTED_FIELD
| QUOTE_IN_QUOTED_FIELD | EAT_CRNL.

#[global] Instance ParserState_eq_dec : EqDecision ParserState.
Proof. solve_decision. Defined.

(** A character of the line, or the end-of-line mark fed after each line. *)
Inductive Ch := Char (c : ascii) | EOL.

Record Reader := mkReader {
  state : ParserState;
  fields : list string;   (* fields saved so far, in order *)
  field : string;         (* the field being read *)
}.

Definition parse_reset : Reader := mkReader START_RECORD [] EmptyString.

Definition LF : ascii := "010"%char.
Definition CR : ascii := "013"%char.
Definition delimiter : ascii := ","%char.
Definition quotechar : ascii := Ascii.ascii_of_nat 34.

Definition is_newline (c : ascii) : bool := Ascii.eqb c LF || Ascii.eqb c CR.

Definition parse_save_field (r : Reader) (st : ParserState) : Reader :=
  mkReader st (fields r ++ [field r]) EmptyString.

(** [csv.field_size_limit()], which the handlers leave at its default. *)
Definition field_limit : N := 131072.

Definition field_limit_error : string := "field larger than field limit (131072)".

(** [parse_add_char]: a character that would make the field longer than
    the limit raises [csv.Error]. *)
Definition parse_add_char (r : Reader) (c : ascii) (st : ParserState) : string + Reader :=
  if (field_limit <=? N.of_nat (String.length (field r)))%N
  then inl field_limit_error
  else inr (mkReader st (fields r) (field r ++ String c EmptyString)).

Definition set_state (r : Reader) (st : ParserState) : Reader :=
  mkReader st (fields r) (field r).

Definition newline_error : string :=
  "new-line character seen in unquoted field - do you need to open the file with newline=''?".

(** [parse_process_char] for the excel dialect: delimiter [,], quote
    character the double quote, doubled quotes, not strict. *)
Definition start_field (r : Reader) (c : Ch) : string + Reader :=
  match c with
  | EOL => inr (parse_save_field r START_RECORD)
  | Char a =>
      if is_newline a then inr (parse_save_field r EAT_CRNL)
      else if Ascii.eqb a quotechar then inr (set_state r IN_QUOTED_FIELD)
      else if Ascii.eqb a delimiter then inr (parse_save_field r START_FIELD)
      else parse_add_char r a IN_FIELD
  end.

Definition parse_process_char (r : Reader) (c : Ch) : string + Reader :=
  match state r with
  | START_RECORD =>
      match c with
      | EOL => inr r
      | Char a =>
          if is_newline a then inr (set_state r EAT_CRNL)
          else start_field r c
      end
  | START_FIELD => start_field r c
  | IN_FIELD =>
      match c with
      | EOL => inr (parse_save_field r START_RECORD)
      | Char a =>
          if is_newline a then inr (parse_save_field r EAT_CRNL)
          else if Ascii.eqb a delimiter then inr (parse_save_field r START_FIELD)
          else parse_add_char r a IN_FIELD
      end
  | IN_QUOTED_FIELD =>
      match c with
      | EOL => inr r
      | Char a =>
          if Ascii.eqb a quotechar then inr (set_state r QUOTE_IN_QUOTED_FIELD)
          else parse_add_char r a IN_QUOTED_FIELD
      end
  | QUOTE_IN_QUOTED_FIELD =>
      match c with
      | EOL => inr (parse_save_field r START_RECORD)
      | Char a =>
          if Ascii.eqb a quotechar then parse_add_char r a IN_QUOTED_FIELD
          else if Ascii.eqb a delimiter then inr (parse_save_field r START_FIELD)
          else if is_newline a then inr (parse_save_field r EAT_CRNL)
          else parse_add_char r a IN_FIELD
      end
  | EAT_CRNL =>
      match c with
      | EOL => inr (set_state r START_RECORD)
      | Char a => if is_newline a then inr r else inl newline_error
      end
  end.

(** What iterating the reader yields: rows, then [StopIteration] ([RNil])
    or a [csv.Error] ([RError]). *)
Inductive Rows :=
| RNil
| RCons (row : list string) (rest : Rows)
| RError (msg : string).

(** The input iterator is exhausted in the middle of a record. *)
Definition end_of_input (r : Reader) : Rows :=
  if negb (String.eqb (field r) EmptyString)
     || bool_decide (state r = IN_QUOTED_FIELD)
  then RCons (fields (parse_save_field r (state r))) RNil
  else RNil.

(** [Reader_iternext], repeated until the input is exhausted.  The input
    is the [io.StringIO] text, whose lines end at each line feed;
    [in_line] tells that characters of an unterminated line were read.
    Every line is followed by [EOL], and a record is complete when the
    state is back to [START_RECORD]. *)
Fixpoint reader (r : Reader) (in_line : bool) (text : string) : Rows :=
  match text with
  | EmptyString =>
      if in_line then
        match parse_process_char r EOL with
        | inl e => RError e
        | inr r' =>
            if bool_decide (state r' = START_RECORD)
            then RCons (fields r') RNil
            else end_of_input r'
        end
      else end_of_input r
  | String c rest =>
      match parse_process_char r (Char c) with
      | inl e => RError e
      | inr r1 =>
          if Ascii.eqb c LF then
            match parse_process_char r1 EOL with
            | inl e => RError e
            | inr r2 =>
                if bool_decide (state r2 = START_RECORD)
                then RCons (fields r2) (reader parse_reset false rest)
                else reader r2 false rest
            end
          else reader r1 true rest
      end
  end.

(** [csv.reader(io.StringIO(text))]. *)
Definition csv_reader (text : string) : Rows := reader parse_reset false text.

(** ** [csv.DictReader] *)

(** A row as [DictReader] returns it: each field name is bound to the
    value in its column, or to [None] ([restval]) when the row is short.
    As in [dict(zip(fieldnames, row))], the last of several equal names
    wins.  (Surplus values go under the key [None], which no column name
    equals.) *)
Fixpoint zip_restval (names : list string) (row : list string)
  : list (string * option string) :=
  match names with
  | [] => []
  | n :: names' =>
      match row with
      | [] => (n, None) :: zip_restval names' []
      | v :: row' => (n, Some v) :: zip_restval names' row'
      end
  end.

Definition dict_row (names row : list string) : gmap string (option string) :=
  list_to_map (reverse (zip_restval names row)).

(** [row.get(col)]. *)
Definition get (row : gmap string (option string)) (col : string) : option string :=
  mjoin (row !! col).

(** Iterating a [DictReader] after the header: blank rows are skipped. *)
Inductive DictRows :=
| DNil
| DCons (row : gmap string (option string)) (rest : DictRows)
| DError (msg : string).

Fixpoint dict_rows (names : list string) (rs : Rows) : DictRows :=
  match rs with
  | RNil => DNil
  | RError e => DError e
  | RCons [] rest => dict_rows names rest
  | RCons row rest => DCons (dict_row names row) (dict_rows names rest)
  end.

(** [DictReader(io.StringIO(text))]: the [fieldnames] property reads the
    first record only ([None] on empty input); the rows are what the
    iteration yields afterwards. *)
Record DictReader := mkDictReader {
  fieldnames : string + option (list string);   (* [inl]: csv.Error *)
  rows : DictRows;
}.

Definition dict_reader (text : string) : DictReader :=
  match csv_reader text with
  | RNil => mkDictReader (inr None) DNil
  | RError e => mkDictReader (inl e) (DError e)
  | RCons h rest => mkDictReader (inr (Some h)) (dict_rows h rest)
  end.

End Csv.


(* ===================================================================== *)
(** * The [json] module: [json.dumps] of the converted records *)
(* ===================================================================== *)

(** A converted record, [{"id": ..., "value": ..., "timestamp": ...}]. *)
Record Rec := mkRec { rec_id : string; rec_value : string; rec_timestamp : string }.

#[global] Instance Rec_eq_dec : EqDecision Rec.
Proof. solve_decision. Defined.

Module Json.

Definition dq : string := String Csv.quotechar EmptyString.

Definition hex_digit (n : nat) : ascii :=
  if decide (n < 10)%nat then ascii_of_nat (48 + n) else ascii_of_nat (87 + n).

(** The escape of one character with [ensure_ascii]. *)
Definition escape_char (c : ascii) : string :=
  let n := nat_of_ascii c in
  if Ascii.eqb c Csv.quotechar then "\" ++ dq
  else if Ascii.eqb c "\" then "\\"
  else if Ascii.eqb c "008" then "\b"
  else if Ascii.eqb c "012" then "\f"
  else if Ascii.eqb c "010" then "\n"
  else if Ascii.eqb c "013" then "\r"
  else if Ascii.eqb c "009" then "\t"
  else if decide (32 <= n /\ n <= 126)%nat then String c EmptyString
  else "\u00" ++ String (hex_digit (n / 16)) (String (hex_digit (n mod 16)) EmptyString).

Fixpoint escape (s : string) : string :=
  match s with
  | EmptyString => EmptyString
  | String c rest => escape_char c ++ escape rest
  end.

Definition str (s : string) : string := dq ++ escape s ++ dq.

Definition members (r : Rec) : list string :=
  [ str "id" ++ ": " ++ str (rec_id r);
    str "value" ++ ": " ++ str (rec_value r);
    str "timestamp" ++ ": " ++ str (rec_timestamp r) ].

(** [json.dumps(records)]: separators [", "] and [": "]. *)
Definition dumps (records : list Rec) : string :=
  "[" ++ Py.join ", " (map (fun r => "{" ++ Py.join ", " (members r) ++ "}") records) ++ "]".

Definition newline : string := String Csv.LF EmptyString.

(** [json.dumps(records, indent=2)]: one member per line, the item
    separator is [","]; an empty list is ["[]"]. *)
Definition dumps_indent2 (records : list Rec) : string :=
  match records with
  | [] => "[]"
  | _ =>
      "[" ++ newline ++ "  "
      ++ Py.join ("," ++ newline ++ "  ")
           (map (fun r =>
                   "{" ++ newline ++ "    "
                   ++ Py.join ("," ++ newline ++ "    ") (members r)
                   ++ newline ++ "  }") records)
      ++ newline ++ "]"
  end.

End Json.

(* ===================================================================== *)
(** * The services: jobs table, bucket, queue, clock *)
(* ===================================================================== *)

(** A DynamoDB attribute value: a string, a number or NULL (what boto3
    stores for [None]). *)
Inductive Attr := AS (s : string) | AN (n : Z) | ANull.

#[global] Instance Attr_eq_dec : EqDecision Attr.
Proof. solve_decision. Defined.

(** The body of a queue message, [{"jobId": ..., "bucket": ..., "key": ...}].
    The queue holds the decoded dict: [json.loads] of the [json.dumps] of it. *)
Record Message := mkMessage { msg_jobId : string; msg_bucket : string; msg_key : string }.

#[global] Instance Message_eq_dec : EqDecision Message.
Proof. solve_decision. Defined.

(** A call to a service. *)
Inductive Call :=
| PutItem (item : gmap string Attr)
| UpdateItem (job_id : string) (updates : gmap string Attr)
| GetObject (bucket key : string)
| PutObject (bucket key body : string)
| SendMessage (m : Message).

(** The world a handler runs in.  [faults] scripts the services: call by
    call, in program order, [Some e] makes the next call raise an exception
    of text [e], [None] lets it succeed (as does an exhausted script).
    [clock] gives the successive readings of the clock, [ticks] counts the
    readings taken. *)
Record World := mkWorld {
  table : gmap string (gmap string Attr);
  objects : gmap (string * string) string;
  queue : list Message;
  faults : list (option string);
  clock : nat -> string;
  ticks : nat;
  fresh_uuid : string;          (* what [str(uuid.uuid4())] returns *)
  PROCESSED_PREFIX : string;    (* [os.environ.get("PROCESSED_PREFIX", "processed/")] *)
}.

Definition set_table (f : gmap string (gmap string Attr) -> gmap string (gmap string Attr))
  (w : World) : World :=
  mkWorld (f (table w)) (objects w) (queue w) (faults w) (clock w) (ticks w)
    (fresh_uuid w) (PROCESSED_PREFIX w).

Definition set_objects (f : gmap (string * string) string -> gmap (string * string) string)
  (w : World) : World :=
  mkWorld (table w) (f (objects w)) (queue w) (faults w) (clock w) (ticks w)
    (fresh_uuid w) (PROCESSED_PREFIX w).

Definition set_queue (f : list Message -> list Message) (w : World) : World :=
  mkWorld (table w) (objects w) (f (queue w)) (faults w) (clock w) (ticks w)
    (fresh_uuid w) (PROCESSED_PREFIX w).

Definition set_faults (fs : list (option string)) (w : World) : World :=
  mkWorld (table w) (objects w) (queue w) fs (clock w) (ticks w)
    (fresh_uuid w) (PROCESSED_PREFIX w).

Definition tick (w : World) : World :=
  mkWorld (table w) (objects w) (queue w) (faults w) (clock w) (S (ticks w))
    (fresh_uuid w) (PROCESSED_PREFIX w).

(** ** The monad of the handlers: state, exceptions, and the trace of calls *)

Inductive Outcome (A : Type) :=
| Ret (a : A)
| Raise (e : string).
Arguments Ret {A} a.
Arguments Raise {A} e.

(** A trace entry: the call and whether it succeeded. *)
Definition Trace := list (Call * bool).

Definition M (A : Type) : Type := World -> Outcome A * World * Trace.

#[global] Instance M_ret : MRet M := fun A a w => (Ret a, w, []).

#[global] Instance M_bind : MBind M := fun A B k m w =>
  match m w with
  | (Ret a, w1, t1) =>
      match k a w1 with
      | (o, w2, t2) => (o, w2, (t1 ++ t2)%list)
      end
  | (Raise e, w1, t1) => (Raise e, w1, t1)
  end.

Definition raise {A} (e : string) : M A := fun w => (Raise e, w, []).

(** [try: body except Exception as e: handler(e)]. *)
Definition try_except {A} (body : M A) (handler : string -> M A) : M A := fun w =>
  match body w with
  | (Ret a, w1, t1) => (Ret a, w1, t1)
  | (Raise e, w1, t1) =>
      match handler e w1 with
      | (o, w2, t2) => (o, w2, (t1 ++ t2)%list)
      end
  end.

Definition ask {A} (f : World -> A) : M A := fun w => (Ret (f w), w, []).

(** Lifting of a computation that can only raise. *)
Definition lift {A} (r : string + A) : M A :=
  match r with
  | inl e => raise e
  | inr a => mret a
  end.

(** The next entry of the fault script, and the world once it is consumed. *)
Definition next_fault (w : World) : option string :=
  match faults w with
  | f :: _ => f
  | [] => None
  end.

Definition pop (w : World) : World := set_faults (tail (faults w)) w.

(** A call that writes: it fails as scripted, or applies its effect. *)
Definition service (c : Call) (effect : World -> World) : M unit := fun w =>
  match next_fault w with
  | Some e => (Raise e, pop w, [(c, false)])
  | None => (Ret tt, effect (pop w), [(c, true)])
  end.

(** [get_timestamp()] / [now_iso()]: a reading of the clock. *)
Definition get_timestamp : M string := fun w => (Ret (clock w (ticks w)), tick w, []).

(** [table.put_item(Item=item)]: the item replaces the record of its key. *)
Definition put_item (item : gmap string Attr) : M unit :=
  match item !! "jobId" with
  | Some (AS job_id) => service (PutItem item) (set_table (insert job_id item))
  | _ => raise "ValidationException: missing the key jobId in the item"
  end.

(** The record after [SET] of [updates]: the named attributes are written
    over the record; a missing record is created with its key. *)
Definition updated (job_id : string) (updates : gmap string Attr)
  (old : option (gmap string Attr)) : gmap string Attr :=
  updates ∪ default {[ "jobId" := AS job_id ]} old.

(** [table.update_item(Key={"jobId": job_id}, UpdateExpression="SET ...")]. *)
Definition update_item (job_id : string) (updates : gmap string Attr) : M unit :=
  service (UpdateItem job_id updates)
    (set_table (fun t => <[ job_id := updated job_id updates (t !! job_id) ]> t)).

Definition no_such_key : string :=
  "An error occurred (NoSuchKey) when calling the GetObject operation: The specified key does not exist.".

(** Why a fetch fails, if it does: as scripted, or for want of the object. *)
Definition fetch_error (fault : option string) (objs : gmap (string * string) string)
  (bucket key : string) : option string :=
  match fault with
  | Some e => Some e
  | None => match objs !! (bucket, key) with
            | Some _ => None
            | None => Some no_such_key
            end
  end.

(** [s3.get_object(Bucket=bucket, Key=key)["Body"].read().decode("utf-8")]. *)
Definition get_object (bucket key : string) : M string := fun w =>
  match next_fault w with
  | Some e => (Raise e, pop w, [(GetObject bucket key, false)])
  | None =>
      match objects w !! (bucket, key) with
      | Some content => (Ret content, pop w, [(GetObject bucket key, true)])
      | None => (Raise no_such_key, pop w, [(GetObject bucket key, false)])
      end
  end.

(** [s3.put_object(Bucket=bucket, Key=key, Body=body, ...)]. *)
Definition put_object (bucket key body : string) : M unit :=
  service (PutObject bucket key body) (set_objects (insert (bucket, key) body)).

(** [sqs.send_message(QueueUrl=SQS_QUEUE_URL, MessageBody=json.dumps(m))]. *)
Definition send_message (m : Message) : M unit :=
  service (SendMessage m) (set_queue (fun q => (q ++ [m])%list)).

(** ** Events and responses *)

(** An S3 notification, any part of which may be missing. *)
Record S3Bucket := mkS3Bucket { bucket_name : option string }.
Record S3Object := mkS3Object { object_key : option string }.
Record S3Entity := mkS3Entity { s3_bucket : option S3Bucket; s3_object : option S3Object }.
Record S3Record := mkS3Record { record_s3 : option S3Entity }.
Record S3Event := mkS3Event { s3_Records : option (list S3Record) }.

(** An SQS event: each record carries a message body. *)
Record SQSRecord := mkSQSRecord { record_body : Message }.
Record SQSEvent := mkSQSEvent { sqs_Records : list SQSRecord }.

(** The dict a handler returns. *)
Definition Response := list (string * Attr).

(** [d[k]] of a dict that may lack the key, and [l[0]]. *)
Definition subscript {A} (k : string) (o : option A) : M A :=
  match o with
  | Some a => mret a
  | None => raise ("KeyError: '" ++ k ++ "'")
  end.

Definition first {A} (l : list A) : M A :=
  match l with
  | a :: _ => mret a
  | [] => raise "IndexError: list index out of range"
  end.

(** The upload event of one object. *)
Definition upload_event (bucket key : string) : S3Event :=
  mkS3Event (Some [mkS3Record (Some (mkS3Entity (Some (mkS3Bucket (Some bucket)))
                                                 (Some (mkS3Object (Some key)))))]).

(** The delivery of one message. *)
Definition delivery (m : Message) : SQSEvent := mkSQSEvent [mkSQSRecord m].

Definition REQUIRED_COLUMNS : list string := ["id"; "value"; "timestamp"].

(** [[col for col in REQUIRED_COLUMNS if col not in headers]]. *)
Definition missing_columns (headers : list string) : list string :=
  filter (fun col => col ∉ headers) REQUIRED_COLUMNS.


(** [try: a = body except Exception as e: handler(e)] followed by the rest
    of the function, [rest a]; the handler returns from the function or
    raises. *)
Definition try_else {A B} (body : M A) (handler : string -> M B) (rest : A -> M B) : M B :=
  fun w =>
  match body w with
  | (Ret a, w1, t1) =>
      match rest a w1 with
      | (o, w2, t2) => (o, w2, (t1 ++ t2)%list)
      end
  | (Raise e, w1, t1) =>
      match handler e w1 with
      | (o, w2, t2) => (o, w2, (t1 ++ t2)%list)
      end
  end.

(** [row[col]] in the branch where [row.get(col)] is a non-empty string. *)
Definition item (row : gmap string (option string)) (col : string) : string :=
  default EmptyString (Csv.get row col).

(* ===================================================================== *)
(** * validator/handler.py *)
(* ===================================================================== *)

Module Validator.

Definition lambda_handler (event : S3Event) : M Response :=
  records ← subscript "Records" (s3_Records event);
  record ← first records;
  s3 ← subscript "s3" (record_s3 record);
  b ← subscript "bucket" (s3_bucket s3);
  bucket ← subscript "name" (bucket_name b);
  o ← subscript "object" (s3_object s3);
  key ← subscript "key" (object_key o);
  let job_id := Py.splitext_root (Py.basename key) in
  started ← get_timestamp;
  put_item {[ "jobId" := AS job_id;
              "status" := AS "VALIDATING";
              "s3Source" := AS ("s3://" ++ bucket ++ "/" ++ key);
              "startedAt" := AS started;
              "message" := AS "Validating CSV structure" ]};;
  try_else (get_object bucket key)
    (fun e =>
       finished ← get_timestamp;
       update_item job_id {[ "status" := AS "FAILED";
                             "message" := AS ("Could not read file: " ++ e);
                             "finishedAt" := AS finished ]};;
       mret [("status", AS "failed"); ("jobId", AS job_id)])
    (fun content =>
       headers ← lift (Csv.fieldnames (Csv.dict_reader content));
       let headers := default [] headers in
       let missing := missing_columns headers in
       if bool_decide (missing ≠ []) then
         finished ← get_timestamp;
         update_item job_id {[ "status" := AS "FAILED";
                               "message" := AS ("Missing required columns: "
                                                ++ Py.repr_names missing);
                               "finishedAt" := AS finished ]};;
         mret [("status", AS "failed"); ("jobId", AS job_id)]
       else
         send_message (mkMessage job_id bucket key);;
         update_item job_id {[ "status" := AS "PENDING";
                               "message" := AS "Queued for processing" ]};;
         mret [("status", AS "ok"); ("jobId", AS job_id)]).

End Validator.

(* ===================================================================== *)
(** * processor/handler.py *)
(* ===================================================================== *)

Module Processor.

(** The loop [for row in reader], from the state [(records, error_count)]. *)
Fixpoint process_rows (rs : Csv.DictRows) (records : list Rec) (error_count : nat)
  : string + (list Rec * nat) :=
  match rs with
  | Csv.DNil => inr (records, error_count)
  | Csv.DError e => inl e
  | Csv.DCons row rest =>
      if forallb (fun col => Py.truthy (Csv.get row col)) REQUIRED_COLUMNS
      then process_rows rest
             (records ++ [mkRec (item row "id") (item row "value") (item row "timestamp")])
             error_count
      else process_rows rest records (S error_count)
  end.

(** The conversion of the text of the file. *)
Definition convert (content : string) : string + (list Rec * nat) :=
  process_rows (Csv.rows (Csv.dict_reader content)) [] 0.

Definition summary (row_count error_count : nat) : string :=
  let message := "Processed " ++ Py.str_nat row_count ++ " rows" in
  if decide (0 < error_count)%nat
  then message ++ " (" ++ Py.str_nat error_count ++ " errors)"
  else message.

Definition lambda_handler (event : SQSEvent) : M Response :=
  record ← first (sqs_Records event);
  let message := record_body record in
  let job_id := msg_jobId message in
  let bucket := msg_bucket message in
  let key := msg_key message in
  update_item job_id {[ "status" := AS "PROCESSING";
                        "message" := AS "Converting CSV to JSON" ]};;
  try_else (get_object bucket key)
    (fun e =>
       finished ← get_timestamp;
       update_item job_id {[ "status" := AS "FAILED";
                             "message" := AS ("Could not read file: " ++ e);
                             "finishedAt" := AS finished ]};;
       raise e)
    (fun content =>
       '(records, error_count) ← lift (convert content);
       let row_count := (length records + error_count)%nat in
       prefix ← ask PROCESSED_PREFIX;
       let output_key := prefix ++ job_id ++ "/output.json" in
       put_object bucket output_key (Json.dumps_indent2 records);;
       let status := "COMPLETED" in
       let message := summary row_count error_count in
       finished ← get_timestamp;
       update_item job_id {[ "status" := AS status;
                             "message" := AS message;
                             "rowCount" := AN (Z.of_nat row_count);
                             "errorCount" := AN (Z.of_nat error_count);
                             "s3OutputPrefix" := AS (prefix ++ job_id ++ "/");
                             "finishedAt" := AS finished ]};;
       mret [("status", AS "ok"); ("jobId", AS job_id);
             ("rowCount", AN (Z.of_nat row_count))]).

End Processor.

(* ===================================================================== *)
(** * validator_processor/handler.py *)
(* ===================================================================== *)

Module Monolith.

(** [update_job_record(table, job_id, updates)]: the placeholders
    [#k0 = :v0, ...] name the keys and values of [updates]. *)
Definition update_job_record (job_id : string) (updates : gmap string Attr) : M unit :=
  update_item job_id updates.

Definition write_job_record (item : gmap string Attr) : M unit := put_item item.

(** The dict that [validate_and_process_csv] returns. *)
Record Result := mkResult {
  ok : bool;
  message : string;
  row_count : nat;
  error_count : nat;
  records : list Rec;
}.

(** The loop [for row in reader]. *)
Fixpoint process_rows (rs : Csv.DictRows) (valid_records : list Rec)
  (row_count error_count : nat) : string + Result :=
  match rs with
  | Csv.DNil => inr (mkResult true "Processed" row_count error_count valid_records)
  | Csv.DError e => inl e
  | Csv.DCons row rest =>
      let row_count := S row_count in
      if negb (Py.truthy (Csv.get row "id"))
         || negb (Py.truthy (Csv.get row "value"))
         || negb (Py.truthy (Csv.get row "timestamp"))
      then process_rows rest valid_records row_count (S error_count)
      else process_rows rest
             (valid_records ++ [mkRec (item row "id") (item row "value") (item row "timestamp")])
             row_count error_count
  end.

Definition validate_and_process_csv (body_text : string) : string + Result :=
  let reader := Csv.dict_reader body_text in
  match Csv.fieldnames reader with
  | inl e => inl e
  | inr names =>
      let header := default [] names in
      let missing := missing_columns header in
      if bool_decide (missing ≠ [])
      then inr (mkResult false ("Missing required columns: " ++ Py.repr_names missing) 0 0 [])
      else process_rows (Csv.rows reader) [] 0 0
  end.

Section Handler.

(** [urllib.parse.unquote_plus]. *)
Variable unquote_plus : string -> string.

(** The [try] block that reads bucket and key off the event; any
    exception leaves both [None]. *)
Definition extract (event : S3Event) : option string * option string :=
  match default [] (s3_Records event) with
  | [] => (None, None)                               (* IndexError *)
  | record :: _ =>
      let s3rec := default (mkS3Entity None None) (record_s3 record) in
      let bucket := bucket_name (default (mkS3Bucket None) (s3_bucket s3rec)) in
      match object_key (default (mkS3Object None) (s3_object s3rec)) with
      | None => (None, None)                         (* unquote_plus(None) raises *)
      | Some k => (bucket, Some (unquote_plus k))
      end
  end.

(** [s3_source], set with bucket and key in the [try] block. *)
Definition s3_source (bk : option string * option string) : Attr :=
  match bk with
  | (bucket, Some key) => AS ("s3://" ++ Py.str_opt bucket ++ "/" ++ key)
  | (_, None) => ANull
  end.

Definition failed (job_id : string) : Response :=
  [("status", AS "failed"); ("jobId", AS job_id)].

Definition lambda_handler (event : S3Event) : M Response :=
  started_at ← get_timestamp;
  let bk := extract event in
  let bucket := bk.1 in
  let key := bk.2 in
  job_id ← (if Py.truthy key
            then mret (Py.splitext_root (Py.basename (default EmptyString key)))
            else ask fresh_uuid);
  let job_item : gmap string Attr :=
    {[ "jobId" := AS job_id;
       "status" := AS "VALIDATING";
       "s3Source" := s3_source bk;
       "s3OutputPrefix" := ANull;
       "rowCount" := AN 0;
       "errorCount" := AN 0;
       "startedAt" := AS started_at;
       "finishedAt" := ANull;
       "message" := AS EmptyString ]} in
  try_else (write_job_record job_item)
    (fun e => mret [("status", AS "error");
                    ("message", AS ("Failed to write initial job record: " ++ e))])
    (fun _ =>
  if negb (Py.truthy bucket) || negb (Py.truthy key) then
    finished ← get_timestamp;
    update_job_record job_id {[ "status" := AS "FAILED";
                                "finishedAt" := AS finished;
                                "message" := AS "Invalid S3 event payload" ]};;
    mret (failed job_id)
  else
  let bucket := default EmptyString bucket in
  let key := default EmptyString key in
  try_else (get_object bucket key)
    (fun e =>
       finished ← get_timestamp;
       update_job_record job_id {[ "status" := AS "FAILED";
                                   "finishedAt" := AS finished;
                                   "message" := AS ("Failed to read S3 object: " ++ e) ]};;
       mret (failed job_id))
    (fun body =>
  try_else (lift (validate_and_process_csv body))
    (fun e =>
       finished ← get_timestamp;
       update_job_record job_id {[ "status" := AS "FAILED";
                                   "finishedAt" := AS finished;
                                   "message" := AS ("Processing error: " ++ e) ]};;
       mret (failed job_id))
    (fun result =>
  prefix ← ask PROCESSED_PREFIX;
  let output_prefix := prefix ++ job_id ++ "/" in
  let output_key := output_prefix ++ "output.json" in
  try_else
    ((if bool_decide (0 < row_count result)%nat && bool_decide (0 < length (records result))%nat
      then put_object bucket output_key (Json.dumps (records result))
      else mret tt);;
     let status := if decide (error_count result = 0%nat)
                   then "COMPLETED" else "COMPLETED_WITH_ERRORS" in
     finished ← get_timestamp;
     update_job_record job_id {[ "status" := AS status;
                                 "s3OutputPrefix" := AS output_prefix;
                                 "rowCount" := AN (Z.of_nat (row_count result));
                                 "errorCount" := AN (Z.of_nat (error_count result));
                                 "finishedAt" := AS finished;
                                 "message" := AS (message result) ]})
    (fun e =>
       finished ← get_timestamp;
       update_job_record job_id
         {[ "status" := AS "FAILED";
            "finishedAt" := AS finished;
            "message" := AS ("Failed to write processed output or update job: " ++ e) ]};;
       mret (failed job_id))
    (fun _ =>
       mret [("status", AS "ok"); ("jobId", AS job_id);
             ("rowCount", AN (Z.of_nat (row_count result)));
             ("errorCount", AN (Z.of_nat (error_count result)))])))).

End Handler.

(** [unquote_plus] on keys whose escapes denote ASCII characters: [+] is
    a space, [%XX] the character of code [XX]; any other [%] stays. *)
Definition hex_value (c : ascii) : option nat :=
  let n := nat_of_ascii c in
  if decide (48 <= n <= 57)%nat then Some (n - 48)%nat
  else if decide (65 <= n <= 70)%nat then Some (n - 55)%nat
  else if decide (97 <= n <= 102)%nat then Some (n - 87)%nat
  else None.

Fixpoint unquote_plus_ascii (s : string) : string :=
  match s with
  | EmptyString => EmptyString
  | String c rest =>
      if Ascii.eqb c "+" then String " " (unquote_plus_ascii rest)
      else if Ascii.eqb c "%" then
        match rest with
        | String h (String l rest') =>
            match hex_value h, hex_value l with
            | Some a, Some b =>
                if decide (16 * a + b < 128)%nat
                then String (ascii_of_nat (16 * a + b)) (unquote_plus_ascii rest')
                else String c (unquote_plus_ascii rest)
            | _, _ => String c (unquote_plus_ascii rest)
            end
        | _ => String c (unquote_plus_ascii rest)
        end
      else String c (unquote_plus_ascii rest)
  end.

End Monolith.


(* ===================================================================== *)
(** * Observations on records, worlds and traces *)
(* ===================================================================== *)

Definition status_of (it : gmap string Attr) : option string :=
  match it !! "status" with
  | Some (AS s) => Some s
  | _ => None
  end.

(** An attribute is set when it is present and not NULL. *)
Definition is_set (it : gmap string Attr) (k : string) : bool :=
  match it !! k with
  | Some ANull | None => false
  | Some _ => true
  end.

Definition job_status (w : World) (job_id : string) : option string :=
  table w !! job_id ≫= status_of.

Definition job_attr (w : World) (job_id k : string) : option Attr :=
  table w !! job_id ≫= (fun it : gmap string Attr => it !! k).

Definition terminal (s : string) : bool :=
  bool_decide (s ∈ ["FAILED"; "COMPLETED"; "COMPLETED_WITH_ERRORS"]).

Definition successful (s : string) : bool :=
  bool_decide (s ∈ ["COMPLETED"; "COMPLETED_WITH_ERRORS"]).

(** What a call wrote to the table, if it succeeded. *)
Definition written (c : Call * bool) : option (gmap string Attr) :=
  match c with
  | (PutItem it, true) => Some it
  | (UpdateItem _ updates, true) => Some updates
  | _ => None
  end.

(** The statuses written during an invocation, in order. *)
Definition status_writes (t : Trace) : list string :=
  omap (fun c => written c ≫= status_of) t.

Definition job_is_set (w : World) (job_id k : string) : bool :=
  match table w !! job_id with
  | Some it => is_set it k
  | None => false
  end.

Definition has_status (it : gmap string Attr) : bool :=
  match status_of it with
  | Some _ => true
  | None => false
  end.

(** The world, the outcome and the trace of a run. *)
Definition world_of {A} (r : Outcome A * World * Trace) : World := r.1.2.
Definition outcome_of {A} (r : Outcome A * World * Trace) : Outcome A := r.1.1.
Definition trace_of {A} (r : Outcome A * World * Trace) : Trace := r.2.

(** The world in which a later invocation starts: the stores are kept, the
    fault script, the clock and the UUID source are those of the new
    invocation. *)
Definition restart (fs : list (option string)) (clk : nat -> string) (uuid : string)
  (w : World) : World :=
  mkWorld (table w) (objects w) (queue w) fs clk 0 uuid (PROCESSED_PREFIX w).

(** [attr] is set in the record exactly when its status is one of [good]. *)
Definition good_status (good : string -> bool) (it : gmap string Attr) : bool :=
  match status_of it with
  | Some s => good s
  | None => false
  end.

Definition agrees (attr : string) (good : string -> bool) (it : gmap string Attr) : Prop :=
  is_set it attr = good_status good it.

#[global] Instance agrees_dec attr good it : Decision (agrees attr good it).
Proof. unfold agrees. apply _. Defined.

Definition table_agrees (attr : string) (good : string -> bool) (w : World) : Prop :=
  map_Forall (fun _ it => agrees attr good it) (table w).

#[global] Instance table_agrees_dec attr good w : Decision (table_agrees attr good w).
Proof. unfold table_agrees. apply _. Defined.

(** One half of [agrees]: a record whose status is one of [good] has
    [attr] set. *)
Definition set_when (attr : string) (good : string -> bool) (it : gmap string Attr) : Prop :=
  good_status good it = true -> is_set it attr = true.

#[global] Instance set_when_dec attr good it : Decision (set_when attr good it).
Proof. unfold set_when. apply _. Defined.

Definition table_set_when (attr : string) (good : string -> bool) (w : World) : Prop :=
  map_Forall (fun _ it => set_when attr good it) (table w).

#[global] Instance table_set_when_dec attr good w : Decision (table_set_when attr good w).
Proof. unfold table_set_when. apply _. Defined.

(** No call to a service fails: the fault script is exhausted. *)
Definition reliable (w : World) : Prop := faults w = [].

(** The same of what the successful writes of a trace carry. *)
Definition writes_agree (attr : string) (good : string -> bool) (t : Trace) : Prop :=
  Forall (fun c => match written c with
                   | Some it => agrees attr good it
                   | None => True
                   end) t.

(** No record of [old] has [attr] set. *)
Definition old_unset (attr : string) (old : option (gmap string Attr)) : Prop :=
  forall it, old = Some it -> is_set it attr = false.

(** The job a delivery is about ([event["Records"][0]]'s [jobId]). *)
Definition target (event : SQSEvent) : option string :=
  (fun r => msg_jobId (record_body r)) <$> head (sqs_Records event).

(** The bodies put to the bucket and the counts written to the table
    during an invocation. *)
Definition put_bodies (t : Trace) : list string :=
  omap (fun c => match c with
                 | (PutObject _ _ body, true) => Some body
                 | _ => None
                 end) t.

Definition counts_written (t : Trace) : list (Attr * Attr) :=
  omap (fun c => it ← written c;
                 r ← it !! "rowCount";
                 e ← it !! "errorCount";
                 Some (r, e)) t.

(** The services called during an invocation, with the success of each call. *)
Inductive Kind := KPutItem | KUpdateItem | KGetObject | KPutObject | KSendMessage.

#[global] Instance Kind_eq_dec : EqDecision Kind.
Proof. solve_decision. Defined.

Definition kind_of (c : Call) : Kind :=
  match c with
  | PutItem _ => KPutItem
  | UpdateItem _ _ => KUpdateItem
  | GetObject _ _ => KGetObject
  | PutObject _ _ _ => KPutObject
  | SendMessage _ => KSendMessage
  end.

Definition calls (t : Trace) : list (Kind * bool) :=
  (fun c : Call * bool => (kind_of c.1, c.2)) <$> t.

(** ** Rows and validity, in the words of the specification *)

(** The rows a [DictReader] yields, when reading them does not raise. *)
Fixpoint rows_list (rs : Csv.DictRows) : option (list (gmap string (option string))) :=
  match rs with
  | Csv.DNil => Some []
  | Csv.DError _ => None
  | Csv.DCons row rest => (fun l => row :: l) <$> rows_list rest
  end.

(** A field is present and non-empty. *)
Definition value_ok (o : option string) : Prop :=
  match o with
  | Some v => v ≠ EmptyString
  | None => False
  end.

#[global] Instance value_ok_dec o : Decision (value_ok o).
Proof. destruct o; simpl; apply _. Defined.

(** A data row is valid when every required field is present and
    non-empty after lookup by column name. *)
Definition row_valid (row : gmap string (option string)) : Prop :=
  Forall (fun col => value_ok (Csv.get row col)) REQUIRED_COLUMNS.

#[global] Instance row_valid_dec row : Decision (row_valid row).
Proof. unfold row_valid. apply _. Defined.

Definition record_of (row : gmap string (option string)) : Rec :=
  mkRec (item row "id") (item row "value") (item row "timestamp").

(** What the first record of a reader is: [fieldnames]. *)
Definition first_row (rs : Csv.Rows) : string + option (list string) :=
  match rs with
  | Csv.RNil => inr None
  | Csv.RError e => inl e
  | Csv.RCons h _ => inr (Some h)
  end.

(** The reader is outside a quoted field. *)
Definition unquoted (r : Csv.Reader) : Prop :=
  Csv.state r ≠ Csv.IN_QUOTED_FIELD /\ Csv.state r ≠ Csv.QUOTE_IN_QUOTED_FIELD.

(** [n] times the character [c]. *)
Fixpoint run_of (c : ascii) (n : nat) : string :=
  match n with
  | O => EmptyString
  | S n' => String c (run_of c n')
  end.

(** A line of text that holds no line feed and no quote character. *)
Fixpoint plain_line (s : string) : bool :=
  match s with
  | EmptyString => true
  | String c rest =>
      negb (Ascii.eqb c Csv.LF) && negb (Ascii.eqb c Csv.quotechar) && plain_line rest
  end.

(** ** Statements shared by the attributes that go with a status *)

Section Preservation.
Variables (attr : string) (good : string -> bool).

Definition preserved_by_validator : Prop :=
  forall w ev, table_agrees attr good w ->
               table_agrees attr good (world_of (Validator.lambda_handler ev w)).

Definition preserved_by_monolith : Prop :=
  forall unquote_plus w ev,
    table_agrees attr good w ->
    table_agrees attr good (world_of (Monolith.lambda_handler unquote_plus ev w)).

Definition preserved_by_processor : Prop :=
  forall w ev,
    table_agrees attr good w ->
    (forall j, target ev = Some j -> job_is_set w j attr = false) ->
    table_agrees attr good (world_of (Processor.lambda_handler ev w)).

Definition written_by_handlers : Prop :=
  forall w,
    (forall ev, writes_agree attr good (trace_of (Validator.lambda_handler ev w))) /\
    (forall ev, writes_agree attr good (trace_of (Processor.lambda_handler ev w))) /\
    (forall unquote_plus ev,
       writes_agree attr good (trace_of (Monolith.lambda_handler unquote_plus ev w))).
End Preservation.

(** ** Weakest preconditions of the handler monad *)

Definition wp {A} (m : M A) (w : World) (Q : Outcome A -> World -> Trace -> Prop) : Prop :=
  Q (outcome_of (m w)) (world_of (m w)) (trace_of (m w)).

(** ** Worlds and events of the examples *)

Definition line (s : string) : string := s ++ Json.newline.

Definition example_clock : nat -> string := fun _ => "2024-01-01T00:00:00Z".

(** A world with an empty table and queue and one uploaded object. *)
Definition uploaded (content : string) : World :=
  mkWorld ∅ {[ ("ingest", "uploads/a.csv") := content ]} [] [] example_clock 0
    "1b4e28ba-2fa1-41d2-883f-0016d3cca427" "processed/".

(** A world whose bucket is empty. *)
Definition empty_bucket : World :=
  mkWorld ∅ ∅ [] [] example_clock 0 "1b4e28ba-2fa1-41d2-883f-0016d3cca427" "processed/".

Definition upload_a : S3Event := upload_event "ingest" "uploads/a.csv".
Definition message_a : Message := mkMessage "a" "ingest" "uploads/a.csv".

(** Scenario A: one valid row. *)
Definition file_A : string :=
  line "id,value,timestamp" ++ line "1,10,2024-01-01T00:00:00Z".

(** Scenario B: the header lacks [timestamp]. *)
Definition file_B : string := line "id,value" ++ line "1,10".

(** Scenario C: one row with an empty [value]. *)
Definition file_C : string :=
  line "id,value,timestamp" ++ line "1,,2024-01-01T00:00:00Z".

(** A valid row, a row with a bare carriage return inside an unquoted
    field, and a valid row. *)
Definition file_F : string :=
  line "id,value,timestamp" ++ line "1,10,2024-01-01T00:00:00Z"
  ++ line ("2,2" ++ String Csv.CR "0,2024-01-02T00:00:00Z")
  ++ line "3,30,2024-01-03T00:00:00Z".

(** A header, a valid row, a row without timestamp, a blank line, and a
    valid row with a quoted field. *)
Definition file_D : string :=
  line "id,value,timestamp" ++ line "1,10,2024-01-01T00:00:00Z" ++ line "2,20"
  ++ line EmptyString ++ line ("3," ++ Json.dq ++ "3,5" ++ Json.dq ++ ",2024-01-03T00:00:00Z").

Definition header_D : list string := ["id"; "value"; "timestamp"].

Definition data_D : list (gmap string (option string)) :=
  [ Csv.dict_row header_D ["1"; "10"; "2024-01-01T00:00:00Z"];
    Csv.dict_row header_D ["2"; "20"];
    Csv.dict_row header_D ["3"; "3,5"; "2024-01-03T00:00:00Z"] ].

(** Another world that holds the bytes of [file_D]: another table, queue,
    clock, bucket, key and prefix. *)
Definition later_clock : nat -> string := fun _ => "2024-01-02T00:00:00Z".

Definition other_world : World :=
  mkWorld {[ "old" := {[ "jobId" := AS "old"; "status" := AS "FAILED" ]} ]}
    {[ ("archive", "in/b.csv") := file_D ]} [message_a] [] later_clock 7
    "another-uuid" "out/".

Definition message_b : Message := mkMessage "b" "archive" "in/b.csv".

(** An event that names the object but not the bucket. *)
Definition event_without_bucket : S3Event :=
  mkS3Event (Some [mkS3Record (Some (mkS3Entity None
                                       (Some (mkS3Object (Some "uploads/a.csv")))))]).

(** An event without records. *)
Definition event_without_records : S3Event := mkS3Event (Some []).

(* ===================================================================== *)
(** * api_reader/handler.py *)
(* ===================================================================== *)

Module ApiReader.

(** What [json.dumps] is given: strings, integers and [null]. *)
Inductive JsonValue := JString (s : string) | JNumber (n : Z) | JNull.

#[global] Instance JsonValue_eq_dec : EqDecision JsonValue.
Proof. solve_decision. Defined.

(** The event of API Gateway: [pathParameters] is a dict or [None]. *)
Record ApiEvent := mkApiEvent { pathParameters : option (gmap string string) }.

(** The response: [body] is the object whose [json.dumps] is sent (the
    order of the keys of an item is not fixed by the code). *)
Record ApiResponse := mkApiResponse {
  statusCode : Z;
  headers : option (gmap string string);
  body : gmap string JsonValue;
}.

(** [json.dumps(..., cls=DecimalEncoder)] of an attribute: a number of the
    table is a [Decimal] of integral value, which [DecimalEncoder.default]
    turns into an [int]. *)
Definition encode (a : Attr) : JsonValue :=
  match a with
  | AS s => JString s
  | AN n => JNumber n
  | ANull => JNull
  end.

(** [table.get_item(Key={"jobId": job_id}).get("Item")]. *)
Definition get_item (job_id : string) (w : World)
  : (string + option (gmap string Attr)) * World :=
  match next_fault w with
  | Some e => (inl e, pop w)
  | None => (inr (table w !! job_id), pop w)
  end.

Definition lambda_handler (event : ApiEvent) (w : World) : ApiResponse * World :=
  let path_params := default ∅ (pathParameters event) in
  let job_id := path_params !! "id" in
  if negb (Py.truthy job_id) then
    (mkApiResponse 400 None {[ "error" := JString "Missing job ID" ]}, w)
  else
    let job_id := default EmptyString job_id in
    match get_item job_id w with
    | (inr item, w1) =>
        match item with
        | Some it =>
            if bool_decide (it = ∅)
            then (mkApiResponse 404 None
                    {[ "error" := JString "Job not found"; "jobId" := JString job_id ]}, w1)
            else (mkApiResponse 200 (Some {[ "Content-Type" := "application/json" ]})
                    (encode <$> it), w1)
        | None =>
            (mkApiResponse 404 None
               {[ "error" := JString "Job not found"; "jobId" := JString job_id ]}, w1)
        end
    | (inl e, w1) => (mkApiResponse 500 None {[ "error" := JString e ]}, w1)
    end.

(** [(event.get("pathParameters") or {}).get("id")]. *)
Definition requested (event : ApiEvent) : option string :=
  default ∅ (pathParameters event) !! "id".

(** The request [GET /jobs/{id}]. *)
Definition request (id : string) : ApiEvent := mkApiEvent (Some {[ "id" := id ]}).

End ApiReader.

(** ** The location and the job of an upload event *)

(** [event["Records"][0]["s3"]]'s bucket name and object key. *)
Definition s3_location (event : S3Event) : option (string * string) :=
  match s3_Records event with
  | Some (record :: _) =>
      match record_s3 record with
      | Some s3 =>
          match s3_bucket s3 with
          | Some b =>
              match bucket_name b with
              | Some bucket =>
                  match s3_object s3 with
                  | Some o =>
                      match object_key o with
                      | Some key => Some (bucket, key)
                      | None => None
                      end
                  | None => None
                  end
              | None => None
              end
          | None => None
          end
      | None => None
      end
  | _ => None
  end.

(** [os.path.splitext(os.path.basename(key))[0]]. *)
Definition job_id_of (key : string) : string := Py.splitext_root (Py.basename key).

(** The string holds no [c]. *)
Fixpoint lacks (c : ascii) (s : string) : bool :=
  match s with
  | EmptyString => true
  | String a rest => negb (Ascii.eqb a c) && lacks c rest
  end.

(** The same world under another fault script. *)
Definition scripted (fs : list (option string)) (w : World) : World := set_faults fs w.

(** A file whose header the csv reader rejects: a bare carriage return
    inside a field. *)
Definition file_E : string := line ("id" ++ String Csv.CR "value,timestamp") ++ line "1,10".

(** ** The message and the output of a delivery *)

(** [json.loads(event["Records"][0]["body"])]. *)
Definition delivered (event : SQSEvent) : option Message :=
  record_body <$> head (sqs_Records event).

(** Where the Converter puts the output of a message. *)
Definition output_location (w : World) (m : Message) : string * string :=
  (msg_bucket m, PROCESSED_PREFIX w ++ msg_jobId m ++ "/output.json").

(** A record whose three fields are non-empty. *)
Definition filled (r : Rec) : Prop :=
  rec_id r ≠ EmptyString /\ rec_value r ≠ EmptyString /\ rec_timestamp r ≠ EmptyString.

(** The attributes that the Converter writes. *)
Definition converter_attributes : list string :=
  ["status"; "message"; "rowCount"; "errorCount"; "s3OutputPrefix"; "finishedAt"].

(** ** The job and the output of the monolithic handler *)

(** The job identifier: the name of the file when the event yields a key,
    a fresh UUID otherwise. *)
Definition monolith_job (unquote_plus : string -> string) (event : S3Event) (w : World)
  : string :=
  let key := (Monolith.extract unquote_plus event).2 in
  if Py.truthy key then job_id_of (default EmptyString key) else fresh_uuid w.

(** Where the monolithic handler puts the output of an event. *)
Definition monolith_output (unquote_plus : string -> string) (event : S3Event) (w : World)
  : string * string :=
  (default EmptyString (Monolith.extract unquote_plus event).1,
   (PROCESSED_PREFIX w ++ monolith_job unquote_plus event w ++ "/") ++ "output.json").

(** The attributes that the Validator writes. *)
Definition validator_attributes : list string :=
  ["jobId"; "status"; "s3Source"; "startedAt"; "message"; "finishedAt"].

(* ===================================================================== *)
(** * Rules of the weakest preconditions *)
(* ===================================================================== *)

Section Rules.
Context {A B : Type}.
Implicit Types (Q : Outcome B -> World -> Trace -> Prop).

Lemma wp_ret (a : B) w Q : Q (Ret a) w [] -> wp (mret a) w Q.
Proof. done. Qed.

Lemma wp_raise e w Q : Q (Raise e) w [] -> wp (raise e) w Q.
Proof. done. Qed.

Lemma wp_bind (m : M A) (k : A -> M B) w Q :
  wp m w (fun o w1 t1 =>
            match o with
            | Ret a => wp (k a) w1 (fun o2 w2 t2 => Q o2 w2 (t1 ++ t2)%list)
            | Raise e => Q (Raise e) w1 t1
            end) ->
  wp (m ≫= k) w Q.
Proof.
  unfold wp, outcome_of, world_of, trace_of, mbind, M_bind.
  destruct (m w) as [[[a|e] w1] t1]; simpl; [|done].
  by destruct (k a w1) as [[o2 w2] t2].
Qed.

Lemma wp_try_else (body : M A) (handler : string -> M B) (rest : A -> M B) w Q :
  wp body w (fun o w1 t1 =>
               match o with
               | Ret a => wp (rest a) w1 (fun o2 w2 t2 => Q o2 w2 (t1 ++ t2)%list)
               | Raise e => wp (handler e) w1 (fun o2 w2 t2 => Q o2 w2 (t1 ++ t2)%list)
               end) ->
  wp (try_else body handler rest) w Q.
Proof.
  unfold wp, outcome_of, world_of, trace_of, try_else.
  destruct (body w) as [[[a|e] w1] t1]; simpl.
  - by destruct (rest a w1) as [[o2 w2] t2].
  - by destruct (handler e w1) as [[o2 w2] t2].
Qed.

Lemma wp_lift (r : string + B) w Q :
  match r with inl e => Q (Raise e) w [] | inr a => Q (Ret a) w [] end ->
  wp (lift r) w Q.
Proof. by destruct r. Qed.

Lemma wp_ask (f : World -> B) w Q : Q (Ret (f w)) w [] -> wp (ask f) w Q.
Proof. done. Qed.

Lemma wp_subscript k (o : option B) w Q :
  match o with
  | Some a => Q (Ret a) w []
  | None => Q (Raise ("KeyError: '" ++ k ++ "'")) w []
  end ->
  wp (subscript k o) w Q.
Proof. by destruct o. Qed.

Lemma wp_first (l : list B) w Q :
  match l with
  | a :: _ => Q (Ret a) w []
  | [] => Q (Raise "IndexError: list index out of range") w []
  end ->
  wp (first l) w Q.
Proof. by destruct l. Qed.
End Rules.

Lemma wp_service c eff w (Q : Outcome unit -> World -> Trace -> Prop) :
  (forall e, next_fault w = Some e -> Q (Raise e) (pop w) [(c, false)]) ->
  (next_fault w = None -> Q (Ret tt) (eff (pop w)) [(c, true)]) ->
  wp (service c eff) w Q.
Proof.
  unfold wp, outcome_of, world_of, trace_of, service. intros H1 H2.
  destruct (next_fault w) as [e|]; simpl; auto.
Qed.

Lemma wp_get_timestamp w (Q : Outcome string -> World -> Trace -> Prop) :
  Q (Ret (clock w (ticks w))) (tick w) [] -> wp get_timestamp w Q.
Proof. done. Qed.

Lemma wp_get_object b k w (Q : Outcome string -> World -> Trace -> Prop) :
  (forall e, fetch_error (next_fault w) (objects w) b k = Some e ->
             Q (Raise e) (pop w) [(GetObject b k, false)]) ->
  (forall content, next_fault w = None -> objects w !! (b, k) = Some content ->
             Q (Ret content) (pop w) [(GetObject b k, true)]) ->
  wp (get_object b k) w Q.
Proof.
  unfold wp, outcome_of, world_of, trace_of, get_object, fetch_error. intros H1 H2.
  destruct (next_fault w) as [e|]; simpl; auto.
  destruct (objects w !! (b, k)) as [c|]; simpl; auto.
Qed.

Lemma wp_put_item it w (Q : Outcome unit -> World -> Trace -> Prop) job_id :
  it !! "jobId" = Some (AS job_id) ->
  (forall e, next_fault w = Some e -> Q (Raise e) (pop w) [(PutItem it, false)]) ->
  (next_fault w = None ->
   Q (Ret tt) (set_table (insert job_id it) (pop w)) [(PutItem it, true)]) ->
  wp (put_item it) w Q.
Proof. unfold put_item. intros ->. apply wp_service. Qed.

(** Simplification of the projections of a world under its updates. *)
Ltac world_simpl :=
  cbn [table objects queue faults clock ticks fresh_uuid PROCESSED_PREFIX
       set_table set_objects set_queue set_faults tick pop restart app] in *.

(** One step of symbolic execution of a handler. *)
Ltac wp_step :=
  lazymatch goal with
  | |- wp (mbind _ _) _ _ => apply wp_bind
  | |- wp (try_else _ _ _) _ _ => apply wp_try_else
  | |- wp (mret _) _ _ => apply wp_ret
  | |- wp (raise _) _ _ => apply wp_raise
  | |- wp (lift ?r) _ _ => apply wp_lift; destruct r eqn:?
  | |- wp (ask _) _ _ => apply wp_ask
  | |- wp (subscript _ ?o) _ _ => apply wp_subscript; destruct o eqn:?
  | |- wp (first ?l) _ _ => apply wp_first; destruct l eqn:?
  | |- wp get_timestamp _ _ => apply wp_get_timestamp
  | |- wp (get_object _ _) _ _ => apply wp_get_object; [intros ? ?|intros ? ? ?]
  | |- wp (put_item (<[ "jobId" := AS ?j ]> ?rest)) _ _ =>
      apply (wp_put_item _ _ _ j (lookup_insert_eq rest "jobId" (AS j)));
      [intros ? ?|intros ?]
  | |- wp (Monolith.write_job_record (<[ "jobId" := AS ?j ]> ?rest)) _ _ =>
      apply (wp_put_item _ _ _ j (lookup_insert_eq rest "jobId" (AS j)));
      [intros ? ?|intros ?]
  | |- wp (update_item _ _) _ _ => apply wp_service; [intros ? ?|intros ?]
  | |- wp (Monolith.update_job_record _ _) _ _ => apply wp_service; [intros ? ?|intros ?]
  | |- wp (send_message _) _ _ => apply wp_service; [intros ? ?|intros ?]
  | |- wp (put_object _ _ _) _ _ => apply wp_service; [intros ? ?|intros ?]
  | |- wp (if ?b then _ else _) _ _ => destruct b eqn:?
  | |- wp (match ?x with _ => _ end) _ _ => destruct x eqn:?
  end.

(** Projections of an event that is given. *)
Ltac event_simpl :=
  cbn [delivery upload_event sqs_Records record_body s3_Records record_s3 s3_bucket
       s3_object bucket_name object_key first subscript msg_jobId msg_bucket msg_key
       default from_option id fst snd] in *.

Ltac wp_run := repeat (event_simpl; wp_step; lazy beta iota; world_simpl).

(** The hypotheses on the services and on the data, put together. *)
Ltac tidy :=
  unfold next_fault, fetch_error, reliable in *; world_simpl; cbn [tail] in *;
  repeat (progress
            (repeat match goal with
                    | H : ?o = _, H' : context [match ?o with _ => _ end] |- _ =>
                        rewrite H in H'
                    end;
             repeat match goal with
                    | H : ?x = _, H' : ?x = _ |- _ => rewrite H in H'
                    end;
             repeat match goal with
                    | H : ?b = true, H' : context [?b] |- _ =>
                        lazymatch b with
                        | true => fail
                        | false => fail
                        | _ => rewrite H in H'
                        end
                    | H : ?b = false, H' : context [?b] |- _ =>
                        lazymatch b with
                        | true => fail
                        | false => fail
                        | _ => rewrite H in H'
                        end
                    end;
             lazy beta iota in *; cbn [negb orb andb] in *;
             simplify_eq));
  try congruence.

(** The conjuncts of the goal. *)
Ltac splits := repeat lazymatch goal with |- _ /\ _ => split end.

(** A path that the hypotheses exclude. *)
Ltac excluded := exfalso; tidy.

(** A world in which no call fails. *)
Ltac reliable_world w :=
  destruct w; unfold reliable in *; cbn [faults] in *; subst.

(** Statement of a goal about the run [m w] as a weakest precondition. *)
Ltac wp_of m w :=
  let r := constr:(m w) in
  pattern (outcome_of r), (world_of r), (trace_of r);
  lazymatch goal with
  | |- ?Q (outcome_of _) (world_of _) (trace_of _) => change (wp m w Q)
  end.

(** A closed decidable goal, by evaluation. *)
Ltac decide_leaf := apply (bool_decide_unpack _); vm_compute; reflexivity.

(** The status that the monolithic handler computes from the error count. *)
Ltac case_error_count :=
  try match goal with
      | |- context [decide (Monolith.error_count ?r = 0%nat)] =>
          destruct (decide (Monolith.error_count r = 0%nat))
      end.

(** The same, for the run of a handler that the goal is about. *)
Ltac wp_handler :=
  lazymatch goal with
  | |- context [trace_of (?m ?w)] => wp_of m w
  | |- context [world_of (?m ?w)] => wp_of m w
  | |- context [outcome_of (?m ?w)] => wp_of m w
  end;
  unfold Validator.lambda_handler, Processor.lambda_handler, Monolith.lambda_handler.

(* ===================================================================== *)
(** * The model at work *)
(* ===================================================================== *)

Example job_id_of_a_key :
  Py.splitext_root (Py.basename "uploads/2024/report.v2.csv") = "report.v2".
Proof. reflexivity. Qed.

Example job_id_of_a_dot_file : Py.splitext_root (Py.basename "uploads/.csv") = ".csv".
Proof. reflexivity. Qed.

Example rows_of_file_D :
  Csv.csv_reader file_D
  = Csv.RCons ["id"; "value"; "timestamp"]
      (Csv.RCons ["1"; "10"; "2024-01-01T00:00:00Z"]
         (Csv.RCons ["2"; "20"]
            (Csv.RCons []
               (Csv.RCons ["3"; "3,5"; "2024-01-03T00:00:00Z"] Csv.RNil)))).
Proof. reflexivity. Qed.

Example bare_carriage_return :
  Csv.csv_reader ("id" ++ String Csv.CR "value") = Csv.RError Csv.newline_error.
Proof. reflexivity. Qed.

Example last_of_equal_names_wins :
  Csv.get (Csv.dict_row ["id"; "value"; "id"] ["1"; "2"; "3"]) "id" = Some "3"
  /\ Csv.get (Csv.dict_row ["id"; "value"; "id"] ["1"; "2"]) "id" = None.
Proof. split; reflexivity. Qed.

Example unquote_plus_of_a_key :
  Monolith.unquote_plus_ascii "uploads/my+file%2B1.csv" = "uploads/my file+1.csv".
Proof. reflexivity. Qed.

(** Scenario A through the Validator and the Converter. *)
Example scenario_A :
  let w1 := world_of (Validator.lambda_handler upload_a (uploaded file_A)) in
  let w2 := world_of (Processor.lambda_handler (delivery message_a) w1) in
  job_status w1 "a" = Some "PENDING" /\
  job_status w2 "a" = Some "COMPLETED" /\
  job_attr w2 "a" "rowCount" = Some (AN 1) /\
  job_attr w2 "a" "errorCount" = Some (AN 0) /\
  objects w2 !! ("ingest", "processed/a/output.json")
    = Some (Json.dumps_indent2 [mkRec "1" "10" "2024-01-01T00:00:00Z"]).
Proof. vm_compute. done. Qed.

(* ===================================================================== *)
(** * The statuses written by one invocation *)
(* ===================================================================== *)

Lemma validator_status_writes ev w :
  status_writes (trace_of (Validator.lambda_handler ev w))
    ∈ [ []; ["VALIDATING"]; ["VALIDATING"; "FAILED"]; ["VALIDATING"; "PENDING"] ].
Proof.
  wp_of (Validator.lambda_handler ev) w. unfold Validator.lambda_handler.
  wp_run; decide_leaf.
Qed.

Lemma processor_status_writes ev w :
  status_writes (trace_of (Processor.lambda_handler ev w))
    ∈ [ []; ["PROCESSING"]; ["PROCESSING"; "FAILED"]; ["PROCESSING"; "COMPLETED"] ].
Proof.
  wp_of (Processor.lambda_handler ev) w. unfold Processor.lambda_handler.
  wp_run; decide_leaf.
Qed.

Lemma monolith_status_writes unquote_plus ev w :
  status_writes (trace_of (Monolith.lambda_handler unquote_plus ev w))
    ∈ [ []; ["VALIDATING"]; ["VALIDATING"; "FAILED"]; ["VALIDATING"; "COMPLETED"];
        ["VALIDATING"; "COMPLETED_WITH_ERRORS"] ].
Proof.
  wp_of (Monolith.lambda_handler unquote_plus ev) w. unfold Monolith.lambda_handler.
  wp_run; case_error_count; decide_leaf.
Qed.

(** C1, as amended.  Within one invocation the statuses written follow the
    transition graph, and nothing is written after a terminal status: the
    Validator writes VALIDATING, then FAILED or PENDING; the Converter
    writes PROCESSING, then FAILED or COMPLETED; the monolithic handler
    writes VALIDATING, then FAILED, COMPLETED or COMPLETED_WITH_ERRORS.
    The first write of an invocation does not look at the current status. *)
Theorem status_writes_follow_graph (w : World) :
  (forall ev,
     status_writes (trace_of (Validator.lambda_handler ev w))
       ∈ [ []; ["VALIDATING"]; ["VALIDATING"; "FAILED"]; ["VALIDATING"; "PENDING"] ]) /\
  (forall ev,
     status_writes (trace_of (Processor.lambda_handler ev w))
       ∈ [ []; ["PROCESSING"]; ["PROCESSING"; "FAILED"]; ["PROCESSING"; "COMPLETED"] ]) /\
  (forall unquote_plus ev,
     status_writes (trace_of (Monolith.lambda_handler unquote_plus ev w))
       ∈ [ []; ["VALIDATING"]; ["VALIDATING"; "FAILED"]; ["VALIDATING"; "COMPLETED"];
           ["VALIDATING"; "COMPLETED_WITH_ERRORS"] ]).
Proof.
  split; [|split]; intros.
  - apply validator_status_writes.
  - apply processor_status_writes.
  - apply monolith_status_writes.
Qed.

(** C1, counterexample.  A file is uploaded, validated and converted: its
    job is COMPLETED.  The redelivery of the message writes PROCESSING over
    it before COMPLETED, and a new upload of the file leaves it PENDING. *)
Lemma terminal_status_is_left :
  let w1 := world_of (Validator.lambda_handler upload_a (uploaded file_A)) in
  let w2 := world_of (Processor.lambda_handler (delivery message_a) w1) in
  let w3 := world_of (Validator.lambda_handler upload_a w2) in
  queue w1 = [message_a] /\
  job_status w2 "a" = Some "COMPLETED" /\
  status_writes (trace_of (Processor.lambda_handler (delivery message_a) w2))
    = ["PROCESSING"; "COMPLETED"] /\
  job_status w3 "a" = Some "PENDING".
Proof. vm_compute. done. Qed.

(* ===================================================================== *)
(** * Attributes that go with a class of statuses *)
(* ===================================================================== *)

Section Agreement.
Variables (attr : string) (good : string -> bool).
Hypothesis attr_not_key : attr ≠ "jobId".

Lemma old_unset_Some it : is_set it attr = false -> old_unset attr (Some it).
Proof. intros H it' [= <-]. done. Qed.

Lemma old_unset_job w j : job_is_set w j attr = false -> old_unset attr (table w !! j).
Proof. unfold job_is_set. intros H it Hit. by rewrite Hit in H. Qed.

Lemma is_set_updated_keep j u old :
  u !! attr = None -> old_unset attr old -> is_set (updated j u old) attr = false.
Proof.
  intros Hu Hold. unfold is_set, updated. rewrite lookup_union_r by done.
  destruct old as [it|]; simpl.
  - apply (Hold it eq_refl).
  - by rewrite lookup_singleton_ne.
Qed.

Lemma old_unset_updated j u old :
  u !! attr = None -> old_unset attr old -> old_unset attr (Some (updated j u old)).
Proof. intros. by apply old_unset_Some, is_set_updated_keep. Qed.

Lemma is_set_updated_new j u old :
  is_set u attr = true -> is_set (updated j u old) attr = true.
Proof.
  unfold is_set, updated. destruct (u !! attr) as [a|] eqn:Hu; [|done].
  intros Ha. by rewrite (lookup_union_Some_l _ _ _ _ Hu).
Qed.

Lemma status_of_updated j u old :
  has_status u = true -> status_of (updated j u old) = status_of u.
Proof.
  unfold has_status, status_of, updated.
  destruct (u !! "status") as [a|] eqn:Hu; [|done].
  intros _. by rewrite (lookup_union_Some_l _ _ _ _ Hu).
Qed.

Lemma agrees_updated_new j u old :
  is_set u attr = true -> good_status good u = true -> has_status u = true ->
  agrees attr good (updated j u old).
Proof.
  intros Hs Hg Hst. unfold agrees, good_status.
  rewrite is_set_updated_new, status_of_updated by done. apply eq_sym, Hg.
Qed.

Lemma agrees_updated_keep j u old :
  u !! attr = None -> good_status good u = false -> has_status u = true ->
  old_unset attr old ->
  agrees attr good (updated j u old).
Proof.
  intros Hs Hg Hst Hold. unfold agrees, good_status.
  rewrite is_set_updated_keep, status_of_updated by done. apply eq_sym, Hg.
Qed.

Lemma table_agrees_insert (j : string) it (t : gmap string (gmap string Attr)) :
  agrees attr good it ->
  map_Forall (fun _ it => agrees attr good it) t ->
  map_Forall (fun _ it => agrees attr good it) (<[ j := it ]> t).
Proof. intros. by apply map_Forall_insert_2. Qed.
End Agreement.

(** The record and the table at the end of a path of a handler. *)
Ltac solve_old_unset :=
  lazymatch goal with
  | |- old_unset _ (Some (updated _ _ _)) =>
      apply old_unset_updated; [done | vm_compute; reflexivity | solve_old_unset]
  | |- old_unset _ (Some _) => apply old_unset_Some; vm_compute; reflexivity
  | |- old_unset _ _ => assumption
  end.

Ltac solve_agrees :=
  rewrite ?lookup_insert_eq;
  lazymatch goal with
  | |- agrees _ _ (updated _ _ _) =>
      first
        [ apply agrees_updated_new; vm_compute; reflexivity
        | apply agrees_updated_keep;
          [ done | vm_compute; reflexivity | vm_compute; reflexivity
          | vm_compute; reflexivity | solve_old_unset ] ]
  | |- agrees _ _ _ => vm_compute; reflexivity
  end.

Ltac solve_table_agrees :=
  case_error_count;
  repeat lazymatch goal with
         | |- map_Forall _ (<[ _ := _ ]> _) => apply table_agrees_insert; [solve_agrees|]
         end;
  lazymatch goal with
  | H : map_Forall _ (table ?w) |- map_Forall _ (table ?w) => exact H
  end.

Ltac solve_writes_agree :=
  case_error_count;
  repeat (apply Forall_cons; split; [vm_compute; done|]);
  apply Forall_nil; done.


Ltac prove_preserved :=
  intros *; intros Hw; unfold table_agrees in *; wp_handler; wp_run; solve_table_agrees.

Ltac prove_preserved_by_processor :=
  let Hold := fresh "Hold" in
  intros *; intros Hw Hold; unfold table_agrees in *; wp_handler; wp_run;
  try match goal with
      | H : sqs_Records _ = _ :: _ |- _ =>
          unfold target in Hold; rewrite H in Hold; specialize (Hold _ eq_refl);
          apply old_unset_job in Hold
      end;
  solve_table_agrees.

Ltac prove_written_by_handlers :=
  intros ?; split; [|split]; intros;
  wp_handler; wp_run; unfold writes_agree; solve_writes_agree.

Lemma prefix_preserved_by_validator : preserved_by_validator "s3OutputPrefix" successful.
Proof. hnf. prove_preserved. Qed.

Lemma prefix_preserved_by_monolith : preserved_by_monolith "s3OutputPrefix" successful.
Proof. hnf. prove_preserved. Qed.

Lemma prefix_preserved_by_processor : preserved_by_processor "s3OutputPrefix" successful.
Proof. hnf. prove_preserved_by_processor. Qed.

Lemma prefix_written_by_handlers : written_by_handlers "s3OutputPrefix" successful.
Proof. hnf. prove_written_by_handlers. Qed.

Lemma finished_preserved_by_validator : preserved_by_validator "finishedAt" terminal.
Proof. hnf. prove_preserved. Qed.

Lemma finished_preserved_by_monolith : preserved_by_monolith "finishedAt" terminal.
Proof. hnf. prove_preserved. Qed.

Lemma finished_preserved_by_processor : preserved_by_processor "finishedAt" terminal.
Proof. hnf. prove_preserved_by_processor. Qed.

Lemma finished_written_by_handlers : written_by_handlers "finishedAt" terminal.
Proof. hnf. prove_written_by_handlers. Qed.

(* ===================================================================== *)
(** * The output prefix and the status *)
(* ===================================================================== *)

(** The half of the agreement that every handler keeps, whatever the
    record held before. *)
Section Half.
Variables (attr : string) (good : string -> bool).

Lemma set_when_item it : agrees attr good it -> set_when attr good it.
Proof. unfold agrees, set_when. intros -> Hg. exact Hg. Qed.

Lemma set_when_updated j u old :
  has_status u = true -> agrees attr good u -> set_when attr good (updated j u old).
Proof.
  intros Hst Hu. unfold agrees, set_when, good_status in *.
  rewrite status_of_updated by done.
  intros Hg. apply is_set_updated_new. rewrite Hu. exact Hg.
Qed.

Lemma table_set_when_insert (j : string) it (t : gmap string (gmap string Attr)) :
  set_when attr good it ->
  map_Forall (fun _ it => set_when attr good it) t ->
  map_Forall (fun _ it => set_when attr good it) (<[ j := it ]> t).
Proof. intros. by apply map_Forall_insert_2. Qed.
End Half.

Ltac solve_table_set_when :=
  case_error_count;
  repeat lazymatch goal with
         | |- map_Forall _ (<[ _ := updated _ _ _ ]> _) =>
             apply table_set_when_insert;
             [apply set_when_updated; vm_compute; reflexivity|]
         | |- map_Forall _ (<[ _ := _ ]> _) =>
             apply table_set_when_insert; [apply set_when_item; vm_compute; reflexivity|]
         end;
  lazymatch goal with
  | H : map_Forall _ (table ?w) |- map_Forall _ (table ?w) => exact H
  end.

Ltac prove_kept :=
  intros *; intros Hw; unfold table_set_when in *; wp_handler; wp_run;
  solve_table_set_when.

Lemma prefix_kept_by_validator w ev :
  table_set_when "s3OutputPrefix" successful w ->
  table_set_when "s3OutputPrefix" successful (world_of (Validator.lambda_handler ev w)).
Proof. prove_kept. Qed.

Lemma prefix_kept_by_monolith unquote_plus w ev :
  table_set_when "s3OutputPrefix" successful w ->
  table_set_when "s3OutputPrefix" successful
    (world_of (Monolith.lambda_handler unquote_plus ev w)).
Proof. prove_kept. Qed.

Lemma prefix_kept_by_processor w ev :
  table_set_when "s3OutputPrefix" successful w ->
  table_set_when "s3OutputPrefix" successful (world_of (Processor.lambda_handler ev w)).
Proof. prove_kept. Qed.

(** C2, as amended.  A record whose status is COMPLETED or
    COMPLETED_WITH_ERRORS has [s3OutputPrefix] set: a table with that
    property keeps it under each of the three handlers, whatever the
    event and the faults.  Every write of the handlers sets the prefix
    exactly together with such a status.  The converse, that a record
    with the prefix set has such a status, is kept by the Validator and
    by the monolithic handler, and by the Converter only when the record
    of its job carries no prefix yet: its updates to PROCESSING and to
    FAILED leave the prefix of an earlier run in the record.  The number
    of valid records has no part in any of this. *)
Theorem output_prefix_follows_success (w : World) :
  table_set_when "s3OutputPrefix" successful w ->
  ((forall ev,
      table_set_when "s3OutputPrefix" successful
        (world_of (Validator.lambda_handler ev w))) /\
   (forall unquote_plus ev,
      table_set_when "s3OutputPrefix" successful
        (world_of (Monolith.lambda_handler unquote_plus ev w))) /\
   (forall ev,
      table_set_when "s3OutputPrefix" successful
        (world_of (Processor.lambda_handler ev w)))) /\
  ((forall ev, writes_agree "s3OutputPrefix" successful
                 (trace_of (Validator.lambda_handler ev w))) /\
   (forall ev, writes_agree "s3OutputPrefix" successful
                 (trace_of (Processor.lambda_handler ev w))) /\
   (forall unquote_plus ev,
      writes_agree "s3OutputPrefix" successful
        (trace_of (Monolith.lambda_handler unquote_plus ev w)))) /\
  (table_agrees "s3OutputPrefix" successful w ->
   (forall ev,
      table_agrees "s3OutputPrefix" successful
        (world_of (Validator.lambda_handler ev w))) /\
   (forall unquote_plus ev,
      table_agrees "s3OutputPrefix" successful
        (world_of (Monolith.lambda_handler unquote_plus ev w))) /\
   (forall ev,
      (forall j, target ev = Some j -> job_is_set w j "s3OutputPrefix" = false) ->
      table_agrees "s3OutputPrefix" successful
        (world_of (Processor.lambda_handler ev w)))).
Proof.
  intros Hw. split; [|split].
  - split; [|split]; intros.
    + by apply prefix_kept_by_validator.
    + by apply prefix_kept_by_monolith.
    + by apply prefix_kept_by_processor.
  - split; [|split]; intros; apply prefix_written_by_handlers.
  - intros Ha. split; [|split]; intros.
    + by apply prefix_preserved_by_validator.
    + by apply prefix_preserved_by_monolith.
    + by apply prefix_preserved_by_processor.
Qed.

(** Scenario A is validated and converted, the uploaded file is removed
    and the message is delivered again: the table still has the property. *)
Lemma output_prefix_follows_success_witness :
  let w1 := world_of (Validator.lambda_handler upload_a (uploaded file_A)) in
  let w2 := world_of (Processor.lambda_handler (delivery message_a) w1) in
  let w := set_objects (delete ("ingest", "uploads/a.csv")) w2 in
  table_set_when "s3OutputPrefix" successful w /\
  table_set_when "s3OutputPrefix" successful
    (world_of (Processor.lambda_handler (delivery message_a) w)).
Proof.
  intros w1 w2 w. assert (Hw : table_set_when "s3OutputPrefix" successful w) by decide_leaf.
  split; [exact Hw|].
  exact (proj2 (proj2 (proj1 (output_prefix_follows_success w Hw))) (delivery message_a)).
Defined.

(** C2, counterexample.  Scenario A is validated and converted: the job is
    COMPLETED with the prefix set.  The uploaded file is removed and the
    message is delivered again: the Converter writes PROCESSING, the fetch
    fails, and the job is FAILED with the prefix of the first run still
    set.  Scenario C has no valid row: the Converter ends COMPLETED with
    the prefix set, having written the empty array; the monolithic handler
    ends COMPLETED_WITH_ERRORS with the prefix set, having written no
    object at all. *)
Lemma output_prefix_without_success :
  let w1 := world_of (Validator.lambda_handler upload_a (uploaded file_A)) in
  let w2 := world_of (Processor.lambda_handler (delivery message_a) w1) in
  let w3 := world_of (Processor.lambda_handler (delivery message_a)
                        (set_objects (delete ("ingest", "uploads/a.csv")) w2)) in
  let c1 := world_of (Validator.lambda_handler upload_a (uploaded file_C)) in
  let c2 := world_of (Processor.lambda_handler (delivery message_a) c1) in
  let m := world_of (Monolith.lambda_handler Monolith.unquote_plus_ascii upload_a
                       (uploaded file_C)) in
  (job_status w2 "a" = Some "COMPLETED" /\
   job_attr w2 "a" "s3OutputPrefix" = Some (AS "processed/a/")) /\
  (job_status w3 "a" = Some "FAILED" /\
   job_attr w3 "a" "s3OutputPrefix" = Some (AS "processed/a/")) /\
  (job_status c2 "a" = Some "COMPLETED" /\
   job_attr c2 "a" "s3OutputPrefix" = Some (AS "processed/a/") /\
   objects c2 !! ("ingest", "processed/a/output.json") = Some "[]") /\
  (job_status m "a" = Some "COMPLETED_WITH_ERRORS" /\
   job_attr m "a" "s3OutputPrefix" = Some (AS "processed/a/") /\
   objects m !! ("ingest", "processed/a/output.json") = None).
Proof. vm_compute. done. Qed.

(* ===================================================================== *)
(** * The finishing time and the status *)
(* ===================================================================== *)

(** C8, as amended.  Every write of the three handlers sets [finishedAt]
    exactly together with a terminal status.  A table whose records have
    [finishedAt] set exactly when their status is terminal keeps the
    property under the Validator, under the monolithic handler, and under
    the Converter when the record of its job has no [finishedAt] yet (the
    update to PROCESSING leaves the other attributes as they are). *)
Theorem finishedAt_iff_terminal (w : World) :
  table_agrees "finishedAt" terminal w ->
  (forall ev,
     table_agrees "finishedAt" terminal (world_of (Validator.lambda_handler ev w))) /\
  (forall unquote_plus ev,
     table_agrees "finishedAt" terminal
       (world_of (Monolith.lambda_handler unquote_plus ev w))) /\
  (forall ev,
     (forall j, target ev = Some j -> job_is_set w j "finishedAt" = false) ->
     table_agrees "finishedAt" terminal (world_of (Processor.lambda_handler ev w))) /\
  (forall ev, writes_agree "finishedAt" terminal
                (trace_of (Validator.lambda_handler ev w))) /\
  (forall ev, writes_agree "finishedAt" terminal
                (trace_of (Processor.lambda_handler ev w))) /\
  (forall unquote_plus ev,
     writes_agree "finishedAt" terminal
       (trace_of (Monolith.lambda_handler unquote_plus ev w))).
Proof.
  intros Hw. repeat split; intros.
  - by apply finished_preserved_by_validator.
  - by apply finished_preserved_by_monolith.
  - by apply finished_preserved_by_processor.
  - apply finished_written_by_handlers.
  - apply finished_written_by_handlers.
  - apply finished_written_by_handlers.
Qed.

(** The table after the validation of scenario A, and its conversion. *)
Lemma finishedAt_iff_terminal_witness :
  let w := world_of (Validator.lambda_handler upload_a (uploaded file_A)) in
  table_agrees "finishedAt" terminal w /\
  table_agrees "finishedAt" terminal
    (world_of (Processor.lambda_handler (delivery message_a) w)).
Proof.
  intros w. assert (Hw : table_agrees "finishedAt" terminal w) by decide_leaf.
  split; [exact Hw|].
  apply (finishedAt_iff_terminal w Hw).
  intros j [= <-]. vm_compute. reflexivity.
Defined.

(** C8, counterexample.  Scenario A is validated and converted; the message
    is delivered again, and this time the write of the output object fails:
    the record is left PROCESSING with the [finishedAt] of the first run. *)
Lemma finishedAt_on_a_processing_record :
  let w1 := world_of (Validator.lambda_handler upload_a (uploaded file_A)) in
  let w2 := world_of (Processor.lambda_handler (delivery message_a) w1) in
  let again := restart [None; None; Some "S3 write failed"] example_clock
                 (fresh_uuid w2) w2 in
  let r := Processor.lambda_handler (delivery message_a) again in
  job_status w2 "a" = Some "COMPLETED" /\
  outcome_of r = Raise "S3 write failed" /\
  job_status (world_of r) "a" = Some "PROCESSING" /\
  job_is_set (world_of r) "a" "finishedAt" = true.
Proof. vm_compute. done. Qed.

(* ===================================================================== *)
(** * The record after an update *)
(* ===================================================================== *)

Lemma job_status_updated (t : gmap string (gmap string Attr)) j u old :
  has_status u = true ->
  (<[ j := updated j u old ]> t) !! j ≫= status_of = status_of u.
Proof. intros H. rewrite lookup_insert_eq. simpl. by apply status_of_updated. Qed.

Lemma job_attr_updated (t : gmap string (gmap string Attr)) j u old k v :
  u !! k = Some v ->
  (<[ j := updated j u old ]> t) !! j ≫= (fun it : gmap string Attr => it !! k) = Some v.
Proof.
  intros H. rewrite lookup_insert_eq. simpl. unfold updated.
  by rewrite (lookup_union_Some_l _ _ _ _ H).
Qed.

Lemma job_is_set_updated (t : gmap string (gmap string Attr)) j u old k :
  is_set u k = true ->
  match (<[ j := updated j u old ]> t) !! j with
  | Some it => is_set it k
  | None => false
  end = true.
Proof.
  intros H. rewrite lookup_insert_eq. unfold is_set, updated in *.
  destruct (u !! k) as [a|] eqn:Hu; [|done].
  by rewrite (lookup_union_Some_l _ _ _ _ Hu).
Qed.

(** The status and the attributes of the job at the end of a path. *)
Ltac solve_status :=
  rewrite job_status_updated by (vm_compute; reflexivity); vm_compute; reflexivity.

Ltac solve_attr :=
  lazymatch goal with
  | |- _ = Some ?v => apply (job_attr_updated _ _ _ _ _ v); vm_compute; reflexivity
  end.

Ltac solve_is_set := apply job_is_set_updated; vm_compute; reflexivity.

(* ===================================================================== *)
(** * The finalizing transition *)
(* ===================================================================== *)

Lemma processor_completes w m content records error_count :
  reliable w ->
  objects w !! (msg_bucket m, msg_key m) = Some content ->
  Processor.convert content = inr (records, error_count) ->
  let w' := world_of (Processor.lambda_handler (delivery m) w) in
  job_status w' (msg_jobId m) = Some "COMPLETED" /\
  job_attr w' (msg_jobId m) "errorCount" = Some (AN (Z.of_nat error_count)) /\
  job_attr w' (msg_jobId m) "message"
    = Some (AS (Processor.summary (length records + error_count) error_count)).
Proof.
  intros Hrel Hobj Hconv w'. subst w'. unfold job_status, job_attr. reliable_world w.
  wp_handler. wp_run.
  all: try by excluded.
  all: tidy; splits; [solve_status|solve_attr|solve_attr].
Qed.

(** The message of the Converter names the errors when there are some. *)
Lemma summary_with_errors row_count error_count :
  (0 < error_count)%nat ->
  Processor.summary row_count error_count
  = ("Processed " ++ Py.str_nat row_count ++ " rows")
      ++ " (" ++ Py.str_nat error_count ++ " errors)".
Proof. intros H. unfold Processor.summary. by rewrite decide_True. Qed.

Lemma monolith_completes unquote_plus w ev bucket key body result :
  reliable w ->
  Monolith.extract unquote_plus ev = (Some bucket, Some key) ->
  Py.truthy (Some bucket) = true ->
  Py.truthy (Some key) = true ->
  objects w !! (bucket, key) = Some body ->
  Monolith.validate_and_process_csv body = inr result ->
  let job_id := Py.splitext_root (Py.basename key) in
  let w' := world_of (Monolith.lambda_handler unquote_plus ev w) in
  job_status w' job_id
    = Some (if decide (Monolith.error_count result = 0%nat)
            then "COMPLETED" else "COMPLETED_WITH_ERRORS") /\
  job_attr w' job_id "errorCount" = Some (AN (Z.of_nat (Monolith.error_count result))).
Proof.
  intros Hrel Hex Hb Hk Hobj Hres job_id w'. subst w' job_id. unfold job_status, job_attr.
  reliable_world w. wp_handler. rewrite Hex. wp_run.
  all: try by excluded.
  all: tidy; split; [solve_status|solve_attr].
Qed.

(** C3, as amended.  When every call succeeds and the file is read and
    converted, the monolithic handler ends COMPLETED if [errorCount] is 0
    and COMPLETED_WITH_ERRORS otherwise; the Converter fed by the queue
    ends COMPLETED whatever [errorCount] is, and records the count in the
    attribute [errorCount] and, when it is not 0, in the message
    "Processed N rows (E errors)". *)
Theorem finalizing_status :
  (forall unquote_plus w ev bucket key body result,
     reliable w ->
     Monolith.extract unquote_plus ev = (Some bucket, Some key) ->
     Py.truthy (Some bucket) = true ->
     Py.truthy (Some key) = true ->
     objects w !! (bucket, key) = Some body ->
     Monolith.validate_and_process_csv body = inr result ->
     let job_id := Py.splitext_root (Py.basename key) in
     let w' := world_of (Monolith.lambda_handler unquote_plus ev w) in
     job_status w' job_id
       = Some (if decide (Monolith.error_count result = 0%nat)
               then "COMPLETED" else "COMPLETED_WITH_ERRORS") /\
     job_attr w' job_id "errorCount"
       = Some (AN (Z.of_nat (Monolith.error_count result)))) /\
  (forall w m content records error_count,
     reliable w ->
     objects w !! (msg_bucket m, msg_key m) = Some content ->
     Processor.convert content = inr (records, error_count) ->
     let w' := world_of (Processor.lambda_handler (delivery m) w) in
     let row_count := (length records + error_count)%nat in
     job_status w' (msg_jobId m) = Some "COMPLETED" /\
     job_attr w' (msg_jobId m) "errorCount" = Some (AN (Z.of_nat error_count)) /\
     job_attr w' (msg_jobId m) "message"
       = Some (AS (Processor.summary row_count error_count)) /\
     ((0 < error_count)%nat ->
      Processor.summary row_count error_count
      = ("Processed " ++ Py.str_nat row_count ++ " rows")
          ++ " (" ++ Py.str_nat error_count ++ " errors)")).
Proof.
  split; intros.
  - by eapply monolith_completes.
  - destruct (processor_completes w m content records error_count)
      as (Hstatus & Hcount & Hmessage); [done..|].
    splits; [exact Hstatus|exact Hcount|exact Hmessage|apply summary_with_errors].
Qed.

(** Scenario C under both handlers. *)
Lemma finalizing_status_witness :
  (job_status (world_of (Monolith.lambda_handler Monolith.unquote_plus_ascii upload_a
                           (uploaded file_C))) "a"
     = Some "COMPLETED_WITH_ERRORS") /\
  (job_status (world_of (Processor.lambda_handler (delivery message_a)
                           (uploaded file_C))) "a"
     = Some "COMPLETED") /\
  (job_attr (world_of (Processor.lambda_handler (delivery message_a)
                         (uploaded file_C))) "a" "message"
     = Some (AS "Processed 1 rows (1 errors)")).
Proof.
  split.
  - refine (proj1 (proj1 finalizing_status Monolith.unquote_plus_ascii (uploaded file_C)
                     upload_a "ingest" "uploads/a.csv" file_C
                     (Monolith.mkResult true "Processed" 1 1 [])
                     _ _ _ _ _ _)); reflexivity.
  - destruct (proj2 finalizing_status (uploaded file_C) message_a file_C [] 1%nat
                eq_refl eq_refl eq_refl) as (H1 & _ & H3 & H4).
    split; [exact H1|]. etransitivity; [exact H3|].
    rewrite H4 by (cbn; lia). vm_compute. reflexivity.
Defined.

(** C3, counterexample.  Scenario C has one row, and it is rejected: the
    Converter ends COMPLETED with [errorCount] 1. *)
Lemma completed_with_an_error_count :
  let w := world_of (Processor.lambda_handler (delivery message_a) (uploaded file_C)) in
  job_status w "a" = Some "COMPLETED" /\
  job_attr w "a" "errorCount" = Some (AN 1) /\
  job_attr w "a" "rowCount" = Some (AN 1).
Proof. vm_compute. done. Qed.

(* ===================================================================== *)
(** * A fetch that fails *)
(* ===================================================================== *)

Lemma processor_fetch_failure w m e :
  next_fault w = None ->
  fetch_error (next_fault (pop w)) (objects w) (msg_bucket m) (msg_key m) = Some e ->
  next_fault (pop (pop w)) = None ->
  let r := Processor.lambda_handler (delivery m) w in
  outcome_of r = Raise e /\
  job_status (world_of r) (msg_jobId m) = Some "FAILED" /\
  job_is_set (world_of r) (msg_jobId m) "finishedAt" = true /\
  job_attr (world_of r) (msg_jobId m) "message" = Some (AS ("Could not read file: " ++ e)).
Proof.
  intros H1 H2 H3 r. subst r. unfold job_status, job_attr, job_is_set.
  wp_handler. wp_run.
  all: try by excluded.
  all: tidy; splits; [reflexivity|solve_status|solve_is_set|solve_attr].
Qed.

Lemma monolith_fetch_failure unquote_plus w ev bucket key e :
  Monolith.extract unquote_plus ev = (Some bucket, Some key) ->
  Py.truthy (Some bucket) = true ->
  Py.truthy (Some key) = true ->
  next_fault w = None ->
  fetch_error (next_fault (pop w)) (objects w) bucket key = Some e ->
  next_fault (pop (pop w)) = None ->
  let job_id := Py.splitext_root (Py.basename key) in
  let r := Monolith.lambda_handler unquote_plus ev w in
  outcome_of r = Ret (Monolith.failed job_id) /\
  job_status (world_of r) job_id = Some "FAILED" /\
  job_is_set (world_of r) job_id "finishedAt" = true /\
  job_attr (world_of r) job_id "message" = Some (AS ("Failed to read S3 object: " ++ e)).
Proof.
  intros Hex Hb Hk H1 H2 H3 job_id r. subst r job_id.
  unfold job_status, job_attr, job_is_set.
  wp_handler. rewrite Hex. wp_run.
  all: try by excluded.
  all: tidy; splits; [reflexivity|solve_status|solve_is_set|solve_attr].
Qed.

(** C9, as amended.  When the first write to the table succeeds, the fetch
    fails with an exception of text [e], and the next write succeeds, the
    job is FAILED with [finishedAt] set and a message that holds [e].  The
    Converter fed by the queue then raises the exception again; the
    monolithic handler returns [{"status": "failed", "jobId": ...}]. *)
Theorem fetch_failure_fails_the_job :
  (forall w m e,
     next_fault w = None ->
     fetch_error (next_fault (pop w)) (objects w) (msg_bucket m) (msg_key m) = Some e ->
     next_fault (pop (pop w)) = None ->
     let r := Processor.lambda_handler (delivery m) w in
     outcome_of r = Raise e /\
     job_status (world_of r) (msg_jobId m) = Some "FAILED" /\
     job_is_set (world_of r) (msg_jobId m) "finishedAt" = true /\
     job_attr (world_of r) (msg_jobId m) "message"
       = Some (AS ("Could not read file: " ++ e))) /\
  (forall unquote_plus w ev bucket key e,
     Monolith.extract unquote_plus ev = (Some bucket, Some key) ->
     Py.truthy (Some bucket) = true ->
     Py.truthy (Some key) = true ->
     next_fault w = None ->
     fetch_error (next_fault (pop w)) (objects w) bucket key = Some e ->
     next_fault (pop (pop w)) = None ->
     let job_id := Py.splitext_root (Py.basename key) in
     let r := Monolith.lambda_handler unquote_plus ev w in
     outcome_of r = Ret (Monolith.failed job_id) /\
     job_status (world_of r) job_id = Some "FAILED" /\
     job_is_set (world_of r) job_id "finishedAt" = true /\
     job_attr (world_of r) job_id "message"
       = Some (AS ("Failed to read S3 object: " ++ e))).
Proof.
  split; intros.
  - by apply processor_fetch_failure.
  - by eapply monolith_fetch_failure.
Qed.

(** The object of the message is not in the bucket. *)
Lemma fetch_failure_fails_the_job_witness :
  let r := Processor.lambda_handler (delivery message_a) empty_bucket in
  outcome_of r = Raise no_such_key /\
  job_status (world_of r) "a" = Some "FAILED" /\
  job_is_set (world_of r) "a" "finishedAt" = true /\
  job_attr (world_of r) "a" "message" = Some (AS ("Could not read file: " ++ no_such_key)).
Proof.
  refine (proj1 fetch_failure_fails_the_job empty_bucket message_a no_such_key _ _ _);
    reflexivity.
Defined.

(** C9, counterexample.  The monolithic handler, on an upload whose object
    cannot be fetched, marks the job FAILED and returns: nothing is raised. *)
Lemma fetch_failure_returns :
  let r := Monolith.lambda_handler Monolith.unquote_plus_ascii upload_a empty_bucket in
  outcome_of r = Ret [("status", AS "failed"); ("jobId", AS "a")] /\
  calls (trace_of r) = [(KPutItem, true); (KGetObject, false); (KUpdateItem, true)] /\
  job_status (world_of r) "a" = Some "FAILED".
Proof. vm_compute. done. Qed.

(* ===================================================================== *)
(** * An event without bucket or key *)
(* ===================================================================== *)

(** C10, as amended.  When the event yields no bucket or no key (absent or
    empty) and the two writes succeed, the monolithic handler creates the
    record in status VALIDATING and at once marks it FAILED, with
    [finishedAt] set and the message "Invalid S3 event payload"; it calls
    neither the bucket nor a queue.  The record is keyed by the fresh UUID
    when there is no key, and by the name of the file when the key is
    there and only the bucket is missing. *)
Theorem invalid_payload_fails_the_job unquote_plus w ev :
  let bucket := (Monolith.extract unquote_plus ev).1 in
  let key := (Monolith.extract unquote_plus ev).2 in
  negb (Py.truthy bucket) || negb (Py.truthy key) = true ->
  next_fault w = None ->
  next_fault (pop w) = None ->
  let job_id := if Py.truthy key
                then Py.splitext_root (Py.basename (default EmptyString key))
                else fresh_uuid w in
  let r := Monolith.lambda_handler unquote_plus ev w in
  outcome_of r = Ret (Monolith.failed job_id) /\
  calls (trace_of r) = [(KPutItem, true); (KUpdateItem, true)] /\
  status_writes (trace_of r) = ["VALIDATING"; "FAILED"] /\
  job_status (world_of r) job_id = Some "FAILED" /\
  job_is_set (world_of r) job_id "finishedAt" = true /\
  job_attr (world_of r) job_id "message" = Some (AS "Invalid S3 event payload").
Proof.
  intros bucket key Hbad H1 H2 job_id r. subst r job_id bucket key.
  unfold job_status, job_attr, job_is_set.
  wp_handler. wp_run.
  all: try by excluded.
  all: tidy; splits;
    [reflexivity|reflexivity|vm_compute; reflexivity|solve_status|solve_is_set|solve_attr].
Qed.

(** An event without records: the record is keyed by the UUID. *)
Lemma invalid_payload_fails_the_job_witness :
  let r := Monolith.lambda_handler Monolith.unquote_plus_ascii event_without_records
             empty_bucket in
  outcome_of r = Ret (Monolith.failed (fresh_uuid empty_bucket)) /\
  job_status (world_of r) (fresh_uuid empty_bucket) = Some "FAILED".
Proof.
  destruct (invalid_payload_fails_the_job Monolith.unquote_plus_ascii empty_bucket
              event_without_records eq_refl eq_refl eq_refl) as (Ho & _ & _ & Hs & _).
  split; [exact Ho|exact Hs].
Defined.

(** C10, counterexample.  The event names the object [uploads/a.csv] but
    no bucket: the record that is created and failed is that of the job
    [a], named after the file, and no record is keyed by the UUID. *)
Lemma invalid_payload_keyed_by_file_name :
  let r := Monolith.lambda_handler Monolith.unquote_plus_ascii event_without_bucket
             empty_bucket in
  Monolith.extract Monolith.unquote_plus_ascii event_without_bucket
    = (None, Some "uploads/a.csv") /\
  outcome_of r = Ret [("status", AS "failed"); ("jobId", AS "a")] /\
  job_status (world_of r) "a" = Some "FAILED" /\
  job_attr (world_of r) "a" "message" = Some (AS "Invalid S3 event payload") /\
  table (world_of r) !! fresh_uuid empty_bucket = None.
Proof. vm_compute. done. Qed.

(* ===================================================================== *)
(** * The conversion of the rows *)
(* ===================================================================== *)

Lemma truthy_value_ok o : Py.truthy o = bool_decide (value_ok o).
Proof.
  destruct o as [s|]; [|done]. cbn [Py.truthy].
  destruct (String.eqb_spec s EmptyString) as [->|Hne]; cbn [negb]; symmetry.
  - apply bool_decide_eq_false_2. intros H. by apply H.
  - by apply bool_decide_eq_true_2.
Qed.

Lemma all_truthy_row_valid row :
  forallb (fun col => Py.truthy (Csv.get row col)) REQUIRED_COLUMNS
  = bool_decide (row_valid row).
Proof.
  unfold row_valid, REQUIRED_COLUMNS. simpl. rewrite !truthy_value_ok.
  destruct (decide (value_ok (Csv.get row "id"))) as [H1|H1];
    destruct (decide (value_ok (Csv.get row "value"))) as [H2|H2];
    destruct (decide (value_ok (Csv.get row "timestamp"))) as [H3|H3];
    rewrite ?(bool_decide_eq_true_2 _ H1), ?(bool_decide_eq_false_2 _ H1),
      ?(bool_decide_eq_true_2 _ H2), ?(bool_decide_eq_false_2 _ H2),
      ?(bool_decide_eq_true_2 _ H3), ?(bool_decide_eq_false_2 _ H3); simpl;
    first [ rewrite bool_decide_eq_true_2; [done|by repeat constructor]
          | rewrite bool_decide_eq_false_2; [done|]; intros Hv;
            inversion Hv as [|? ? ? Hv']; subst; inversion Hv' as [|? ? ? Hv'']; subst;
            inversion Hv''; subst; done ].
Qed.

Lemma any_falsy_row_valid row :
  negb (Py.truthy (Csv.get row "id")) || negb (Py.truthy (Csv.get row "value"))
  || negb (Py.truthy (Csv.get row "timestamp"))
  = negb (bool_decide (row_valid row)).
Proof.
  rewrite <- all_truthy_row_valid. simpl.
  destruct (Py.truthy (Csv.get row "id")), (Py.truthy (Csv.get row "value")),
    (Py.truthy (Csv.get row "timestamp")); done.
Qed.

(** The loop of the Converter, from any state of its accumulators. *)
Lemma processor_process_rows rs data records error_count :
  rows_list rs = Some data ->
  Processor.process_rows rs records error_count
  = inr ((records ++ (record_of <$> filter row_valid data))%list,
         (error_count + length (filter (fun row => ¬ row_valid row) data))%nat).
Proof.
  revert data records error_count.
  induction rs as [|row rest IH|e]; intros data records error_count Hdata;
    cbn [Processor.process_rows rows_list] in *.
  - injection Hdata as <-. simpl. by rewrite app_nil_r, Nat.add_0_r.
  - destruct (rows_list rest) as [data'|] eqn:Hrest; [|done].
    injection Hdata as <-. rewrite all_truthy_row_valid.
    destruct (decide (row_valid row)) as [Hv|Hv].
    + rewrite bool_decide_eq_true_2 by done. rewrite (IH data') by done.
      rewrite (filter_cons_True row_valid) by done.
      rewrite (filter_cons_False (fun row => ¬ row_valid row)) by (intros H; by apply H).
      rewrite fmap_cons. by rewrite <- app_assoc.
    + rewrite bool_decide_eq_false_2 by done. rewrite (IH data') by done.
      rewrite (filter_cons_False row_valid) by done.
      rewrite (filter_cons_True (fun row => ¬ row_valid row)) by done.
      simpl. f_equal. f_equal. lia.
  - done.
Qed.

(** The loop of the monolithic handler. *)
Lemma monolith_process_rows rs data valid_records row_count error_count :
  rows_list rs = Some data ->
  Monolith.process_rows rs valid_records row_count error_count
  = inr (Monolith.mkResult true "Processed"
           (row_count + length data)
           (error_count + length (filter (fun row => ¬ row_valid row) data))
           (valid_records ++ (record_of <$> filter row_valid data))).
Proof.
  revert data valid_records row_count error_count.
  induction rs as [|row rest IH|e];
    intros data valid_records row_count error_count Hdata;
    cbn [Monolith.process_rows rows_list] in *.
  - injection Hdata as <-. simpl. by rewrite app_nil_r, !Nat.add_0_r.
  - destruct (rows_list rest) as [data'|] eqn:Hrest; [|done].
    injection Hdata as <-. rewrite any_falsy_row_valid.
    destruct (decide (row_valid row)) as [Hv|Hv].
    + rewrite bool_decide_eq_true_2 by done. cbn [negb]. rewrite (IH data') by done.
      rewrite (filter_cons_True row_valid) by done.
      rewrite (filter_cons_False (fun row => ¬ row_valid row)) by (intros H; by apply H).
      rewrite fmap_cons, <- app_assoc. cbn [length app]. f_equal. f_equal. lia.
    + rewrite bool_decide_eq_false_2 by done. cbn [negb]. rewrite (IH data') by done.
      rewrite (filter_cons_False row_valid) by done.
      rewrite (filter_cons_True (fun row => ¬ row_valid row)) by done.
      cbn [length]. f_equal. f_equal; lia.
  - done.
Qed.

(** A [csv.Error] raised while the rows are read ends both loops. *)
Lemma process_rows_error rs :
  rows_list rs = None ->
  (forall records n, exists e, Processor.process_rows rs records n = inl e) /\
  (forall records m n, exists e, Monolith.process_rows rs records m n = inl e).
Proof.
  induction rs as [|row rest IH|e]; simpl; intros Hdata; [done| |by eauto].
  destruct (rows_list rest); [done|]. destruct (IH eq_refl) as [IH1 IH2].
  split; intros; repeat case_match; eauto.
Qed.

(** Both loops end with the error that the reader raised. *)
Lemma process_rows_same_error rs :
  rows_list rs = None ->
  exists e,
    (forall records n, Processor.process_rows rs records n = inl e) /\
    (forall records m n, Monolith.process_rows rs records m n = inl e).
Proof.
  induction rs as [|row rest IH|e]; simpl; intros Hdata; [done| |by eauto].
  destruct (rows_list rest); [done|]. destruct (IH eq_refl) as (e & IH1 & IH2).
  exists e. split; intros; repeat case_match; eauto.
Qed.

Lemma filter_partition_length {A} (P : A -> Prop) `{forall x, Decision (P x)} (l : list A) :
  length l = (length (filter P l) + length (filter (fun x => ¬ P x) l))%nat.
Proof.
  induction l as [|x l IH]; [done|]. destruct (decide (P x)).
  - rewrite (filter_cons_True P) by done.
    rewrite (filter_cons_False (fun x => ¬ P x)) by (intros Hn; by apply Hn).
    simpl. lia.
  - rewrite (filter_cons_False P) by done.
    rewrite (filter_cons_True (fun x => ¬ P x)) by done. simpl. lia.
Qed.

(** C5, as amended.  For a file whose header has the required columns:
    when the csv reader reads every row, both conversions return the
    records of the valid rows, in order, and count the invalid rows as
    errors, and the row count is the number of data rows, valid and
    invalid; when the reader rejects a row, both conversions raise its
    error, and no row after it is converted. *)
Theorem conversion_counts content header :
  Csv.fieldnames (Csv.dict_reader content) = inr (Some header) ->
  missing_columns header = [] ->
  match rows_list (Csv.rows (Csv.dict_reader content)) with
  | Some data =>
      let valid := filter row_valid data in
      let invalid := filter (fun row => ¬ row_valid row) data in
      Processor.convert content = inr (record_of <$> valid, length invalid) /\
      Monolith.validate_and_process_csv content
        = inr (Monolith.mkResult true "Processed" (length data) (length invalid)
                 (record_of <$> valid)) /\
      length data = (length valid + length invalid)%nat
  | None =>
      exists e, Processor.convert content = inl e /\
                Monolith.validate_and_process_csv content = inl e
  end.
Proof.
  intros Hh Hm.
  assert (Hv : Monolith.validate_and_process_csv content
               = Monolith.process_rows (Csv.rows (Csv.dict_reader content)) [] 0 0).
  { unfold Monolith.validate_and_process_csv. rewrite Hh. simpl. rewrite Hm.
    by rewrite bool_decide_eq_false_2 by (intros Hn; by apply Hn). }
  destruct (rows_list (Csv.rows (Csv.dict_reader content))) as [data|] eqn:Hd.
  - intros valid invalid. split; [|split].
    + unfold Processor.convert. by rewrite (processor_process_rows _ data).
    + rewrite Hv. by rewrite (monolith_process_rows _ data).
    + apply filter_partition_length.
  - destruct (process_rows_same_error _ Hd) as (e & H1 & H2). exists e. split.
    + apply H1.
    + rewrite Hv. apply H2.
Qed.

(** A file of three data rows, the second of which lacks the timestamp. *)
Lemma conversion_counts_witness :
  Processor.convert file_D
  = inr (record_of <$> filter row_valid data_D,
         length (filter (fun row => ¬ row_valid row) data_D)) /\
  length (filter row_valid data_D) = 2%nat /\
  length (filter (fun row => ¬ row_valid row) data_D) = 1%nat.
Proof.
  split; [|split; vm_compute; reflexivity].
  pose proof (conversion_counts file_D header_D eq_refl eq_refl) as H.
  assert (Hd : rows_list (Csv.rows (Csv.dict_reader file_D)) = Some data_D)
    by (vm_compute; reflexivity).
  rewrite Hd in H. exact (proj1 H).
Defined.

(** C5, counterexample.  The header of [file_F] has the required columns;
    its second data row holds a bare carriage return in an unquoted
    field.  The csv reader raises there: both conversions end with that
    error, nothing is counted, and the valid rows before and after it are
    not converted; the Converter raises and leaves the job PROCESSING,
    with no output. *)
Lemma csv_error_aborts_the_conversion :
  let r := Processor.lambda_handler (delivery message_a) (uploaded file_F) in
  Csv.fieldnames (Csv.dict_reader file_F) = inr (Some header_D) /\
  missing_columns header_D = [] /\
  rows_list (Csv.rows (Csv.dict_reader file_F)) = None /\
  Processor.convert file_F = inl Csv.newline_error /\
  Monolith.validate_and_process_csv file_F = inl Csv.newline_error /\
  outcome_of r = Raise Csv.newline_error /\
  put_bodies (trace_of r) = [] /\
  counts_written (trace_of r) = [] /\
  job_status (world_of r) "a" = Some "PROCESSING".
Proof. vm_compute. done. Qed.

(* ===================================================================== *)
(** * The header and the required columns *)
(* ===================================================================== *)

Lemma fieldnames_first_row text :
  Csv.fieldnames (Csv.dict_reader text) = first_row (Csv.csv_reader text).
Proof. unfold Csv.dict_reader. by destruct (Csv.csv_reader text). Qed.

Lemma line_append s rest : line s ++ rest = s ++ String Csv.LF rest.
Proof.
  unfold line, Json.newline. induction s as [|c s IH]; [reflexivity|].
  transitivity (String c ((s ++ String Csv.LF EmptyString) ++ rest)); [reflexivity|].
  rewrite IH. reflexivity.
Qed.

Lemma eqb_false_ne (a b : ascii) : Ascii.eqb a b = false -> a ≠ b.
Proof. intros H ->. by rewrite Ascii.eqb_refl in H. Qed.

(** A character that is neither a line feed nor a quote leaves the reader
    outside quoted fields. *)
Lemma parse_plain_char r c :
  unquoted r -> Ascii.eqb c Csv.LF = false -> Ascii.eqb c Csv.quotechar = false ->
  match Csv.parse_process_char r (Csv.Char c) with
  | inl _ => True
  | inr r' => unquoted r'
  end.
Proof.
  intros [H1 H2] Hlf Hq. unfold Csv.parse_process_char, Csv.start_field, unquoted.
  destruct (Csv.state r) eqn:Hs; try done; rewrite ?Hq;
    destruct (Csv.is_newline c), (Ascii.eqb c Csv.delimiter);
    unfold Csv.parse_add_char;
    try destruct (Csv.field_limit <=? N.of_nat (String.length (Csv.field r)))%N;
    cbn [Csv.state Csv.set_state Csv.parse_save_field];
    rewrite ?Hs; done.
Qed.

(** At the end of a line read outside quoted fields, the record is complete. *)
Lemma parse_line_feed r :
  unquoted r ->
  exists r1, Csv.parse_process_char r (Csv.Char Csv.LF) = inr r1
             /\ Csv.state r1 = Csv.EAT_CRNL.
Proof.
  intros [H1 H2]. unfold Csv.parse_process_char, Csv.start_field.
  destruct (Csv.state r) eqn:Hs; try done; simpl; eauto.
Qed.

Lemma reader_first_row_plain hdr :
  plain_line hdr = true ->
  forall r in_line rest1 rest2,
    unquoted r ->
    first_row (Csv.reader r in_line (hdr ++ String Csv.LF rest1))
    = first_row (Csv.reader r in_line (hdr ++ String Csv.LF rest2)).
Proof.
  induction hdr as [|c hdr IH]; intros Hplain r in_line rest1 rest2 Hr.
  - destruct (parse_line_feed r Hr) as (r1 & Hr1 & Hs1).
    change (EmptyString ++ String Csv.LF rest1) with (String Csv.LF rest1).
    change (EmptyString ++ String Csv.LF rest2) with (String Csv.LF rest2).
    cbn [Csv.reader]. rewrite Hr1, Ascii.eqb_refl.
    unfold Csv.parse_process_char. rewrite Hs1. cbn [Csv.set_state Csv.state].
    by rewrite bool_decide_eq_true_2.
  - cbn [plain_line] in Hplain.
    apply andb_prop in Hplain as [Hc Hplain]. apply andb_prop in Hc as [Hlf Hq].
    apply negb_true_iff in Hlf, Hq.
    pose proof (parse_plain_char r c Hr Hlf Hq) as Hstep.
    change (String c hdr ++ String Csv.LF rest1) with (String c (hdr ++ String Csv.LF rest1)).
    change (String c hdr ++ String Csv.LF rest2) with (String c (hdr ++ String Csv.LF rest2)).
    cbn [Csv.reader].
    destruct (Csv.parse_process_char r (Csv.Char c)) as [e|r1]; [done|].
    rewrite Hlf. by apply IH.
Qed.

(** The field names are read off the first line: what follows a header
    line without quotes has no part in them. *)
Lemma fieldnames_header_only hdr rest1 rest2 :
  plain_line hdr = true ->
  Csv.fieldnames (Csv.dict_reader (line hdr ++ rest1))
  = Csv.fieldnames (Csv.dict_reader (line hdr ++ rest2)).
Proof.
  intros Hplain. rewrite !fieldnames_first_row, !line_append.
  apply reader_first_row_plain; [done|]. by split.
Qed.

(** ** The limit on the size of a field *)

Lemma length_add_char s c :
  String.length (s ++ String c EmptyString) = S (String.length s).
Proof.
  induction s as [|a s IH]; [reflexivity|].
  change (String a s ++ String c EmptyString) with (String a (s ++ String c EmptyString)).
  cbn [String.length]. by rewrite IH.
Qed.

(** Inside a field, characters are added until the field holds
    [field_limit] of them; the next one raises. *)
Lemma reader_over_the_limit n :
  forall r in_line,
    Csv.state r = Csv.IN_FIELD ->
    (N.of_nat (String.length (Csv.field r)) <= Csv.field_limit)%N ->
    (Csv.field_limit < N.of_nat (String.length (Csv.field r)) + N.of_nat n)%N ->
    Csv.reader r in_line (run_of "a" n) = Csv.RError Csv.field_limit_error.
Proof.
  induction n as [|n IH]; intros r in_line Hs Hle Hlt; [lia|].
  cbn [run_of Csv.reader]. unfold Csv.parse_process_char. rewrite Hs.
  change (Csv.is_newline "a") with false. change (Ascii.eqb "a" Csv.delimiter) with false.
  cbn match. unfold Csv.parse_add_char.
  destruct (N.leb_spec Csv.field_limit (N.of_nat (String.length (Csv.field r))))
    as [Hfull|Hroom]; [reflexivity|].
  change (Ascii.eqb "a" Csv.LF) with false. cbn match.
  apply IH; cbn [Csv.state Csv.field]; [done|rewrite length_add_char; lia..].
Qed.

(** A field of more than [field_limit] characters makes the reader raise
    [csv.Error], as [parse_add_char] of the [_csv] module does. *)
Lemma field_over_the_limit n :
  (Csv.field_limit < N.of_nat n)%N ->
  Csv.csv_reader (run_of "a" n) = Csv.RError Csv.field_limit_error.
Proof.
  intros Hn. destruct n as [|n]; [done|].
  unfold Csv.csv_reader. cbn [run_of Csv.reader].
  change (Csv.parse_process_char Csv.parse_reset (Csv.Char "a"))
    with (inr (B := Csv.Reader) (A := string)
            (Csv.mkReader Csv.IN_FIELD [] (String "a" EmptyString))).
  change (Ascii.eqb "a" Csv.LF) with false. cbn match.
  apply reader_over_the_limit; cbn [Csv.state Csv.field String.length]; [done| |lia].
  unfold Csv.field_limit. lia.
Qed.

(** The missing columns are the required columns that the header lacks. *)
Lemma missing_columns_spec headers col :
  col ∈ missing_columns headers <-> col ∈ REQUIRED_COLUMNS /\ col ∉ headers.
Proof. unfold missing_columns. rewrite list_elem_of_filter. tauto. Qed.

Lemma validate_missing_columns body header :
  Csv.fieldnames (Csv.dict_reader body) = inr header ->
  missing_columns (default [] header) ≠ [] ->
  Monolith.validate_and_process_csv body
  = inr (Monolith.mkResult false
           ("Missing required columns: "
            ++ Py.repr_names (missing_columns (default [] header))) 0 0 []).
Proof.
  intros Hh Hm. unfold Monolith.validate_and_process_csv. rewrite Hh.
  by rewrite bool_decide_eq_true_2.
Qed.

(** In the Validator a header that lacks a required column fails the job:
    the record is FAILED with [finishedAt] set and a message that lists
    the missing columns, and nothing is sent to the queue.  Only the field
    names of the file take part. *)
Lemma validator_missing_columns w bucket key content header :
  reliable w ->
  objects w !! (bucket, key) = Some content ->
  Csv.fieldnames (Csv.dict_reader content) = inr header ->
  missing_columns (default [] header) ≠ [] ->
  let job_id := Py.splitext_root (Py.basename key) in
  let r := Validator.lambda_handler (upload_event bucket key) w in
  outcome_of r = Ret [("status", AS "failed"); ("jobId", AS job_id)] /\
  calls (trace_of r) = [(KPutItem, true); (KGetObject, true); (KUpdateItem, true)] /\
  queue (world_of r) = queue w /\
  job_status (world_of r) job_id = Some "FAILED" /\
  job_is_set (world_of r) job_id "finishedAt" = true /\
  job_attr (world_of r) job_id "message"
    = Some (AS ("Missing required columns: "
                ++ Py.repr_names (missing_columns (default [] header)))).
Proof.
  intros Hrel Hobj Hh Hm job_id r. subst r job_id.
  apply (bool_decide_eq_true_2 _) in Hm.
  unfold job_status, job_attr, job_is_set. reliable_world w.
  wp_handler. wp_run.
  all: try by excluded.
  all: tidy; splits;
    [reflexivity|reflexivity|reflexivity|solve_status|solve_is_set|solve_attr].
Qed.

(** The monolithic handler does not look at the [ok] of the result: on the
    same header it marks the job COMPLETED, with the output prefix set and
    the list of the missing columns as message. *)
Lemma monolith_missing_columns unquote_plus w ev bucket key content header :
  reliable w ->
  Monolith.extract unquote_plus ev = (Some bucket, Some key) ->
  Py.truthy (Some bucket) = true ->
  Py.truthy (Some key) = true ->
  objects w !! (bucket, key) = Some content ->
  Csv.fieldnames (Csv.dict_reader content) = inr header ->
  missing_columns (default [] header) ≠ [] ->
  let job_id := Py.splitext_root (Py.basename key) in
  let r := Monolith.lambda_handler unquote_plus ev w in
  calls (trace_of r) = [(KPutItem, true); (KGetObject, true); (KUpdateItem, true)] /\
  job_status (world_of r) job_id = Some "COMPLETED" /\
  job_is_set (world_of r) job_id "s3OutputPrefix" = true /\
  job_attr (world_of r) job_id "message"
    = Some (AS ("Missing required columns: "
                ++ Py.repr_names (missing_columns (default [] header)))).
Proof.
  intros Hrel Hex Hb Hk Hobj Hh Hm job_id r. subst r job_id.
  pose proof (validate_missing_columns _ _ Hh Hm) as Hres.
  unfold job_status, job_attr, job_is_set. reliable_world w.
  wp_handler. rewrite Hex. wp_run.
  all: try by excluded.
  all: tidy.
  all: try match goal with
           | H : bool_decide _ && _ = true |- _ => by vm_compute in H
           end.
  all: splits; [reflexivity|solve_status|solve_is_set|solve_attr].
Qed.

(** C4, at the failing input.  Scenario B, whose header lacks [timestamp]:
    the conversion reports the missing column, and the monolithic handler
    nevertheless ends the job COMPLETED, with the output prefix set. *)
Theorem monolith_completes_without_timestamp :
  let r := Monolith.lambda_handler Monolith.unquote_plus_ascii upload_a (uploaded file_B) in
  Monolith.validate_and_process_csv file_B
    = inr (Monolith.mkResult false "Missing required columns: ['timestamp']" 0 0 []) /\
  outcome_of r = Ret [("status", AS "ok"); ("jobId", AS "a");
                      ("rowCount", AN 0); ("errorCount", AN 0)] /\
  job_status (world_of r) "a" = Some "COMPLETED" /\
  job_attr (world_of r) "a" "message"
    = Some (AS "Missing required columns: ['timestamp']") /\
  job_attr (world_of r) "a" "s3OutputPrefix" = Some (AS "processed/a/") /\
  job_is_set (world_of r) "a" "finishedAt" = true.
Proof. vm_compute. done. Qed.

(** Scenario B in the Validator: FAILED, and the queue stays empty. *)
Lemma validator_fails_without_timestamp :
  let r := Validator.lambda_handler upload_a (uploaded file_B) in
  outcome_of r = Ret [("status", AS "failed"); ("jobId", AS "a")] /\
  job_status (world_of r) "a" = Some "FAILED" /\
  job_attr (world_of r) "a" "message"
    = Some (AS "Missing required columns: ['timestamp']") /\
  queue (world_of r) = [].
Proof.
  destruct (validator_missing_columns (uploaded file_B) "ingest" "uploads/a.csv" file_B
              (Some ["id"; "value"]) eq_refl eq_refl eq_refl)
    as (Ho & _ & Hq & Hs & _ & Hm); [by vm_compute|].
  intros r. splits; [exact Ho|exact Hs|exact Hm|exact Hq].
Qed.

(* ===================================================================== *)
(** * The conversion as a function of the bytes *)
(* ===================================================================== *)

(** What the Converter puts to the bucket and writes as counts is read off
    the text of the file alone. *)
Lemma processor_observations w m content :
  reliable w ->
  objects w !! (msg_bucket m, msg_key m) = Some content ->
  let t := trace_of (Processor.lambda_handler (delivery m) w) in
  put_bodies t = match Processor.convert content with
                 | inr (records, _) => [Json.dumps_indent2 records]
                 | inl _ => []
                 end /\
  counts_written t = match Processor.convert content with
                     | inr (records, n) =>
                         [(AN (Z.of_nat (length records + n)), AN (Z.of_nat n))]
                     | inl _ => []
                     end.
Proof.
  intros Hrel Hobj t. subst t. reliable_world w.
  wp_handler. wp_run.
  all: try by excluded.
  all: tidy.
  all: match goal with H : Processor.convert _ = _ |- _ => rewrite H end.
  all: split; [reflexivity|vm_compute; reflexivity].
Qed.

Lemma monolith_observations unquote_plus w ev bucket key content :
  reliable w ->
  Monolith.extract unquote_plus ev = (Some bucket, Some key) ->
  Py.truthy (Some bucket) = true ->
  Py.truthy (Some key) = true ->
  objects w !! (bucket, key) = Some content ->
  let t := trace_of (Monolith.lambda_handler unquote_plus ev w) in
  put_bodies t = match Monolith.validate_and_process_csv content with
                 | inr result =>
                     if bool_decide (0 < Monolith.row_count result)%nat
                        && bool_decide (0 < length (Monolith.records result))%nat
                     then [Json.dumps (Monolith.records result)]
                     else []
                 | inl _ => []
                 end /\
  counts_written t
  = (AN 0, AN 0)
    :: match Monolith.validate_and_process_csv content with
       | inr result => [(AN (Z.of_nat (Monolith.row_count result)),
                         AN (Z.of_nat (Monolith.error_count result)))]
       | inl _ => []
       end.
Proof.
  intros Hrel Hex Hb Hk Hobj t. subst t. reliable_world w.
  wp_handler. rewrite Hex. wp_run.
  all: try by excluded.
  all: tidy.
  all: match goal with H : Monolith.validate_and_process_csv _ = _ |- _ => rewrite H end.
  all: try match goal with H : bool_decide _ && bool_decide _ = _ |- _ => rewrite H end.
  all: split; [reflexivity|vm_compute; reflexivity].
Qed.

(** C6.  Two runs on the same bytes, in any two worlds where no call
    fails (other tables, clocks, queues, job identifiers, buckets and
    keys), put the same bodies to the bucket and write the same [rowCount]
    and [errorCount]; this holds of the Converter and of the monolithic
    handler. *)
Theorem conversion_is_deterministic content :
  (forall w1 w2 m1 m2,
     reliable w1 -> reliable w2 ->
     objects w1 !! (msg_bucket m1, msg_key m1) = Some content ->
     objects w2 !! (msg_bucket m2, msg_key m2) = Some content ->
     let t1 := trace_of (Processor.lambda_handler (delivery m1) w1) in
     let t2 := trace_of (Processor.lambda_handler (delivery m2) w2) in
     put_bodies t1 = put_bodies t2 /\ counts_written t1 = counts_written t2) /\
  (forall unquote1 unquote2 w1 w2 ev1 ev2 bucket1 key1 bucket2 key2,
     reliable w1 -> reliable w2 ->
     Monolith.extract unquote1 ev1 = (Some bucket1, Some key1) ->
     Monolith.extract unquote2 ev2 = (Some bucket2, Some key2) ->
     Py.truthy (Some bucket1) = true -> Py.truthy (Some key1) = true ->
     Py.truthy (Some bucket2) = true -> Py.truthy (Some key2) = true ->
     objects w1 !! (bucket1, key1) = Some content ->
     objects w2 !! (bucket2, key2) = Some content ->
     let t1 := trace_of (Monolith.lambda_handler unquote1 ev1 w1) in
     let t2 := trace_of (Monolith.lambda_handler unquote2 ev2 w2) in
     put_bodies t1 = put_bodies t2 /\ counts_written t1 = counts_written t2).
Proof.
  split.
  - intros w1 w2 m1 m2 Hr1 Hr2 Ho1 Ho2 t1 t2.
    destruct (processor_observations w1 m1 content Hr1 Ho1) as [Hb1 Hc1].
    destruct (processor_observations w2 m2 content Hr2 Ho2) as [Hb2 Hc2].
    subst t1 t2. split; congruence.
  - intros u1 u2 w1 w2 ev1 ev2 b1 k1 b2 k2 Hr1 Hr2 He1 He2 Hb1 Hk1 Hb2 Hk2 Ho1 Ho2 t1 t2.
    destruct (monolith_observations u1 w1 ev1 b1 k1 content Hr1 He1 Hb1 Hk1 Ho1) as [Hp1 Hc1].
    destruct (monolith_observations u2 w2 ev2 b2 k2 content Hr2 He2 Hb2 Hk2 Ho2) as [Hp2 Hc2].
    subst t1 t2. split; congruence.
Qed.

(** The bytes of [file_D] in two worlds. *)
Lemma conversion_is_deterministic_witness :
  let t1 := trace_of (Processor.lambda_handler (delivery message_a) (uploaded file_D)) in
  let t2 := trace_of (Processor.lambda_handler (delivery message_b) other_world) in
  put_bodies t1 = put_bodies t2 /\ counts_written t1 = counts_written t2.
Proof.
  refine (proj1 (conversion_is_deterministic file_D) (uploaded file_D) other_world
            message_a message_b _ _ _ _); reflexivity.
Defined.

(* ===================================================================== *)
(** * Redelivery *)
(* ===================================================================== *)

(** C7, as amended.  The Converter is invoked with a message, and invoked
    again with the same message, at another time, in the world that the
    first invocation left; no call to a service fails in either
    invocation, and the source object is what it was (or is missing, as
    it was).  The second invocation leaves the job in the status that the
    first left, the bucket as the first left it, and ends as the first
    did. *)
Theorem redelivery_is_idempotent w m clk uuid :
  reliable w ->
  let once := Processor.lambda_handler (delivery m) w in
  let twice := Processor.lambda_handler (delivery m) (restart [] clk uuid (world_of once)) in
  objects (world_of once) !! (msg_bucket m, msg_key m)
    = objects w !! (msg_bucket m, msg_key m) ->
  job_status (world_of twice) (msg_jobId m) = job_status (world_of once) (msg_jobId m) /\
  objects (world_of twice) = objects (world_of once) /\
  outcome_of twice = outcome_of once.
Proof.
  intros Hrel once twice. subst once twice. unfold job_status. reliable_world w.
  lazymatch goal with
  | |- context [world_of (Processor.lambda_handler ?ev (mkWorld ?t ?o ?q ?f ?c ?k ?u ?p))] =>
      wp_of (Processor.lambda_handler ev) (mkWorld t o q f c k u p)
  end.
  unfold Processor.lambda_handler at 1. wp_run.
  all: try by excluded.
  all: intros Hsrc.
  all: try match goal with
           | H : ?o = Some _ |- _ =>
               lazymatch type of Hsrc with _ = o => rewrite H in Hsrc end
           end.
  all: wp_handler; wp_run.
  all: try by excluded.
  all: tidy; splits;
    [ rewrite !job_status_updated by (vm_compute; reflexivity); vm_compute; reflexivity
    | first [reflexivity | apply insert_insert_eq]
    | reflexivity ].
Qed.

(** Scenario A, delivered twice. *)
Lemma redelivery_is_idempotent_witness :
  let w := world_of (Validator.lambda_handler upload_a (uploaded file_A)) in
  let once := Processor.lambda_handler (delivery message_a) w in
  let twice := Processor.lambda_handler (delivery message_a)
                 (restart [] later_clock "another-uuid" (world_of once)) in
  job_status (world_of once) "a" = Some "COMPLETED" /\
  job_status (world_of twice) "a" = job_status (world_of once) "a" /\
  objects (world_of twice) = objects (world_of once) /\
  outcome_of twice = outcome_of once.
Proof.
  intros w once twice. split; [vm_compute; reflexivity|].
  refine (redelivery_is_idempotent w message_a _ _ _ _); vm_compute; reflexivity.
Defined.

(** C7, counterexample.  Scenario A is validated; at the first delivery of
    the message the fetch fails once (the file is in the bucket): the
    Converter raises and the job is FAILED, with no output.  The message
    is delivered again, the file unchanged, and no call fails: the job is
    COMPLETED and the output is written.  Two invocations do not leave
    what one left. *)
Lemma redelivery_after_a_failed_fetch :
  let w := world_of (Validator.lambda_handler upload_a (uploaded file_A)) in
  let once := Processor.lambda_handler (delivery message_a)
                (scripted [None; Some "Read timed out"] w) in
  let twice := Processor.lambda_handler (delivery message_a)
                 (restart [] later_clock "another-uuid" (world_of once)) in
  outcome_of once = Raise "Read timed out" /\
  job_status (world_of once) "a" = Some "FAILED" /\
  objects (world_of once) !! ("ingest", "uploads/a.csv") = Some file_A /\
  objects (world_of once) !! ("ingest", "processed/a/output.json") = None /\
  (exists resp, outcome_of twice = Ret resp) /\
  job_status (world_of twice) "a" = Some "COMPLETED" /\
  objects (world_of twice) !! ("ingest", "uploads/a.csv") = Some file_A /\
  is_Some (objects (world_of twice) !! ("ingest", "processed/a/output.json")).
Proof. vm_compute. eauto 10. Qed.


(* ===================================================================== *)
(** * The paths of the Validator *)
(* ===================================================================== *)

(** The matches of the goal on what the hypotheses determine. *)
Ltac resolve_goal :=
  repeat match goal with
         | H : ?o = _ |- context [match ?o with _ => _ end] => rewrite H
         end.

(** The record of the job after a [put_item] and the updates that follow. *)
Ltac solve_record :=
  unfold job_status, job_attr, job_is_set; world_simpl;
  rewrite ?lookup_insert_eq; vm_compute; reflexivity.

Ltac validator_path :=
  unfold job_id_of, s3_location in *; wp_handler; wp_run;
  try (by excluded); tidy.

(** X1.  The Validator accepts a file whose header has the required
    columns: it sends the message of the job to the queue and only then
    writes PENDING; the record has no [finishedAt]. *)
Theorem validator_accepts w ev bucket key content header :
  reliable w ->
  s3_location ev = Some (bucket, key) ->
  objects w !! (bucket, key) = Some content ->
  Csv.fieldnames (Csv.dict_reader content) = inr header ->
  missing_columns (default [] header) = [] ->
  let job_id := job_id_of key in
  let r := Validator.lambda_handler ev w in
  outcome_of r = Ret [("status", AS "ok"); ("jobId", AS job_id)] /\
  calls (trace_of r)
    = [(KPutItem, true); (KGetObject, true); (KSendMessage, true); (KUpdateItem, true)] /\
  queue (world_of r) = (queue w ++ [mkMessage job_id bucket key])%list /\
  job_status (world_of r) job_id = Some "PENDING" /\
  job_is_set (world_of r) job_id "finishedAt" = false /\
  job_attr (world_of r) job_id "s3Source" = Some (AS ("s3://" ++ bucket ++ "/" ++ key)).
Proof.
  intros Hrel Hloc Hobj Hh Hm job_id r. subst r job_id.
  assert (Hd : bool_decide (missing_columns (default [] header) ≠ []) = false)
    by (apply bool_decide_eq_false_2; intros Hn; by apply Hn).
  clear Hm. reliable_world w. validator_path.
  all: splits; [reflexivity|reflexivity|reflexivity|solve_record|solve_record|solve_record].
Qed.

Lemma validator_accepts_witness :
  let r := Validator.lambda_handler upload_a (uploaded file_A) in
  queue (world_of r) = [message_a] /\ job_status (world_of r) "a" = Some "PENDING".
Proof.
  intros r.
  pose proof (validator_accepts (uploaded file_A) upload_a "ingest" "uploads/a.csv" file_A
                (Some header_D) eq_refl eq_refl eq_refl eq_refl eq_refl) as H.
  split; [exact (proj1 (proj2 (proj2 H)))|exact (proj1 (proj2 (proj2 (proj2 H))))].
Defined.

(** X2.  When the fetch fails in the Validator, the job is FAILED with
    [finishedAt] set and the text of the exception in the message; the
    handler returns (it does not raise) and nothing is sent to the queue. *)
Theorem validator_fetch_failure w ev bucket key e :
  s3_location ev = Some (bucket, key) ->
  next_fault w = None ->
  fetch_error (next_fault (pop w)) (objects w) bucket key = Some e ->
  next_fault (pop (pop w)) = None ->
  let job_id := job_id_of key in
  let r := Validator.lambda_handler ev w in
  outcome_of r = Ret [("status", AS "failed"); ("jobId", AS job_id)] /\
  calls (trace_of r) = [(KPutItem, true); (KGetObject, false); (KUpdateItem, true)] /\
  queue (world_of r) = queue w /\
  job_status (world_of r) job_id = Some "FAILED" /\
  job_is_set (world_of r) job_id "finishedAt" = true /\
  job_attr (world_of r) job_id "message" = Some (AS ("Could not read file: " ++ e)).
Proof.
  intros Hloc H1 H2 H3 job_id r. subst r job_id. validator_path.
  splits; [reflexivity|reflexivity|reflexivity|solve_record|solve_record|solve_record].
Qed.

Lemma validator_fetch_failure_witness :
  let r := Validator.lambda_handler upload_a empty_bucket in
  job_status (world_of r) "a" = Some "FAILED" /\
  job_attr (world_of r) "a" "message" = Some (AS ("Could not read file: " ++ no_such_key)).
Proof.
  intros r.
  pose proof (validator_fetch_failure empty_bucket upload_a "ingest" "uploads/a.csv"
                no_such_key eq_refl eq_refl eq_refl eq_refl) as H.
  split; [exact (proj1 (proj2 (proj2 (proj2 H))))
         |exact (proj2 (proj2 (proj2 (proj2 (proj2 H)))))].
Defined.

(** X3.  A header that the csv reader rejects is not caught by the
    Validator: the exception leaves the handler, the record stays
    VALIDATING and nothing is sent to the queue. *)
Theorem validator_header_error w ev bucket key content e :
  s3_location ev = Some (bucket, key) ->
  next_fault w = None ->
  next_fault (pop w) = None ->
  objects w !! (bucket, key) = Some content ->
  Csv.fieldnames (Csv.dict_reader content) = inl e ->
  let job_id := job_id_of key in
  let r := Validator.lambda_handler ev w in
  outcome_of r = Raise e /\
  calls (trace_of r) = [(KPutItem, true); (KGetObject, true)] /\
  queue (world_of r) = queue w /\
  job_status (world_of r) job_id = Some "VALIDATING" /\
  job_is_set (world_of r) job_id "finishedAt" = false.
Proof.
  intros Hloc H1 H2 Hobj Hh job_id r. subst r job_id. validator_path.
  splits; [reflexivity|reflexivity|reflexivity|solve_record|solve_record].
Qed.

Lemma validator_header_error_witness :
  let r := Validator.lambda_handler upload_a (uploaded file_E) in
  outcome_of r = Raise Csv.newline_error /\ job_status (world_of r) "a" = Some "VALIDATING".
Proof.
  intros r.
  pose proof (validator_header_error (uploaded file_E) upload_a "ingest" "uploads/a.csv"
                file_E Csv.newline_error eq_refl eq_refl eq_refl eq_refl eq_refl) as H.
  split; [exact (proj1 H)|exact (proj1 (proj2 (proj2 (proj2 H))))].
Defined.

(** X4.  When sending to the queue fails, the Validator raises: the queue
    is as it was and the record stays VALIDATING. *)
Theorem validator_enqueue_failure w ev bucket key content header e :
  s3_location ev = Some (bucket, key) ->
  next_fault w = None ->
  next_fault (pop w) = None ->
  next_fault (pop (pop w)) = Some e ->
  objects w !! (bucket, key) = Some content ->
  Csv.fieldnames (Csv.dict_reader content) = inr header ->
  missing_columns (default [] header) = [] ->
  let job_id := job_id_of key in
  let r := Validator.lambda_handler ev w in
  outcome_of r = Raise e /\
  calls (trace_of r) = [(KPutItem, true); (KGetObject, true); (KSendMessage, false)] /\
  queue (world_of r) = queue w /\
  job_status (world_of r) job_id = Some "VALIDATING".
Proof.
  intros Hloc H1 H2 H3 Hobj Hh Hm job_id r. subst r job_id.
  assert (Hd : bool_decide (missing_columns (default [] header) ≠ []) = false)
    by (apply bool_decide_eq_false_2; intros Hn; by apply Hn).
  clear Hm. validator_path.
  splits; [reflexivity|reflexivity|reflexivity|solve_record].
Qed.

Lemma validator_enqueue_failure_witness :
  let r := Validator.lambda_handler upload_a
             (scripted [None; None; Some "queue unavailable"] (uploaded file_A)) in
  outcome_of r = Raise "queue unavailable" /\ queue (world_of r) = [] /\
  job_status (world_of r) "a" = Some "VALIDATING".
Proof.
  intros r.
  pose proof (validator_enqueue_failure
                (scripted [None; None; Some "queue unavailable"] (uploaded file_A))
                upload_a "ingest" "uploads/a.csv" file_A (Some header_D) "queue unavailable"
                eq_refl eq_refl eq_refl eq_refl eq_refl eq_refl eq_refl) as H.
  split; [exact (proj1 H)|split; [exact (proj1 (proj2 (proj2 H)))|exact (proj2 (proj2 (proj2 H)))]].
Defined.

(** X5.  When the write of PENDING fails after the message was sent, the
    Validator raises: the message is in the queue and the record is still
    VALIDATING. *)
Theorem validator_pending_failure w ev bucket key content header e :
  s3_location ev = Some (bucket, key) ->
  next_fault w = None ->
  next_fault (pop w) = None ->
  next_fault (pop (pop w)) = None ->
  next_fault (pop (pop (pop w))) = Some e ->
  objects w !! (bucket, key) = Some content ->
  Csv.fieldnames (Csv.dict_reader content) = inr header ->
  missing_columns (default [] header) = [] ->
  let job_id := job_id_of key in
  let r := Validator.lambda_handler ev w in
  outcome_of r = Raise e /\
  queue (world_of r) = (queue w ++ [mkMessage job_id bucket key])%list /\
  job_status (world_of r) job_id = Some "VALIDATING".
Proof.
  intros Hloc H1 H2 H3 H4 Hobj Hh Hm job_id r. subst r job_id.
  assert (Hd : bool_decide (missing_columns (default [] header) ≠ []) = false)
    by (apply bool_decide_eq_false_2; intros Hn; by apply Hn).
  clear Hm. validator_path.
  splits; [reflexivity|reflexivity|solve_record].
Qed.

Lemma validator_pending_failure_witness :
  let r := Validator.lambda_handler upload_a
             (scripted [None; None; None; Some "table throttled"] (uploaded file_A)) in
  outcome_of r = Raise "table throttled" /\ queue (world_of r) = [message_a] /\
  job_status (world_of r) "a" = Some "VALIDATING".
Proof.
  intros r.
  pose proof (validator_pending_failure
                (scripted [None; None; None; Some "table throttled"] (uploaded file_A))
                upload_a "ingest" "uploads/a.csv" file_A (Some header_D) "table throttled"
                eq_refl eq_refl eq_refl eq_refl eq_refl eq_refl eq_refl eq_refl) as H.
  split; [exact (proj1 H)|split; [exact (proj1 (proj2 H))|exact (proj2 (proj2 H))]].
Defined.

(** X6.  An event that lacks the records, the bucket name or the object
    key makes the Validator raise before it calls any service: no record
    is created. *)
Theorem validator_malformed_event w ev :
  s3_location ev = None ->
  let r := Validator.lambda_handler ev w in
  (exists e, outcome_of r = Raise e) /\ world_of r = w /\ trace_of r = [].
Proof.
  intros Hloc r. subst r. unfold s3_location in *. wp_handler. wp_run.
  all: try by excluded.
  all: splits; eauto.
Qed.

Lemma validator_malformed_event_witness :
  let r := Validator.lambda_handler event_without_bucket (uploaded file_A) in
  world_of r = uploaded file_A /\ trace_of r = [].
Proof.
  intros r.
  exact (proj2 (validator_malformed_event (uploaded file_A) event_without_bucket eq_refl)).
Defined.

(** Symbolic execution that follows what the hypotheses determine. *)
Ltac use_known :=
  repeat match goal with
         | H : ?o = _ |- context [subscript _ ?o] => rewrite H
         | H : ?o = _ |- context [lift ?o] => rewrite H
         | H : ?b = _ |- context [if ?b then _ else _] => rewrite H
         end.

Ltac wp_run_known :=
  repeat (event_simpl; use_known; cbn [lift]; wp_step; lazy beta iota; world_simpl).

(** X7.  The Validator decides on the header line alone: two files with
    the same header line (without quotes) and any data rows give the same
    outcome, the same calls with the same arguments, the same table and
    the same queue, whatever the faults. *)
Theorem validator_reads_header_only w ev bucket key hdr rest1 rest2 :
  s3_location ev = Some (bucket, key) ->
  plain_line hdr = true ->
  let w1 := set_objects (insert (bucket, key) (line hdr ++ rest1)) w in
  let w2 := set_objects (insert (bucket, key) (line hdr ++ rest2)) w in
  let r1 := Validator.lambda_handler ev w1 in
  let r2 := Validator.lambda_handler ev w2 in
  outcome_of r1 = outcome_of r2 /\
  trace_of r1 = trace_of r2 /\
  table (world_of r1) = table (world_of r2) /\
  queue (world_of r1) = queue (world_of r2).
Proof.
  intros Hloc Hplain w1 w2 r1 r2. subst r1 r2 w1 w2.
  pose proof (fieldnames_header_only hdr rest1 rest2 Hplain) as Hfn.
  unfold s3_location in Hloc.
  wp_of (Validator.lambda_handler ev)
        (set_objects (insert (bucket, key) (line hdr ++ rest1)) w).
  unfold Validator.lambda_handler at 1. wp_run.
  all: unfold fetch_error in *;
    repeat match goal with
           | H : context [<[?k:=_]> _ !! ?k] |- _ => rewrite lookup_insert_eq in H
           end.
  all: try by excluded.
  all: tidy.
  all: wp_handler; wp_run_known.
  all: unfold fetch_error in *;
    repeat match goal with
           | H : context [<[?k:=_]> _ !! ?k] |- _ => rewrite lookup_insert_eq in H
           end.
  all: try by excluded.
  all: tidy.
  all: try congruence.
  all: splits; reflexivity.
Qed.

Lemma validator_reads_header_only_witness :
  let r1 := Validator.lambda_handler upload_a (uploaded file_A) in
  let r2 := Validator.lambda_handler upload_a (uploaded (line "id,value,timestamp")) in
  outcome_of r1 = outcome_of r2 /\ table (world_of r1) = table (world_of r2).
Proof.
  intros r1 r2.
  pose proof (validator_reads_header_only empty_bucket upload_a "ingest" "uploads/a.csv"
                "id,value,timestamp" (line "1,10,2024-01-01T00:00:00Z") EmptyString
                eq_refl eq_refl) as H.
  split; [exact (proj1 H)|exact (proj1 (proj2 (proj2 H)))].
Defined.

(** X8.  Whatever the event and the faults, the Validator leaves the
    bucket as it is, changes the record of no job but that of the event,
    and sends at most one message: the message of the job, and only for a
    file whose header has the required columns. *)
Theorem validator_footprint w ev :
  let r := Validator.lambda_handler ev w in
  objects (world_of r) = objects w /\
  (forall j, (fun l : string * string => job_id_of l.2) <$> s3_location ev ≠ Some j ->
             table (world_of r) !! j = table w !! j) /\
  (queue (world_of r) = queue w \/
   exists bucket key content header,
     s3_location ev = Some (bucket, key) /\
     objects w !! (bucket, key) = Some content /\
     Csv.fieldnames (Csv.dict_reader content) = inr header /\
     missing_columns (default [] header) = [] /\
     queue (world_of r) = (queue w ++ [mkMessage (job_id_of key) bucket key])%list).
Proof.
  intros r. subst r. unfold job_id_of, s3_location. wp_handler. wp_run.
  all: resolve_goal.
  all: split; [reflexivity|split].
  all: try (intros j Hj; cbn [fmap option_fmap option_map snd] in Hj;
            rewrite ?lookup_insert_ne by congruence; reflexivity).
  all: try (left; reflexivity).
  all: right; do 4 eexists; splits; try reflexivity; try eassumption.
  all: match goal with
       | H : bool_decide _ = false |- _ =>
           apply bool_decide_eq_false in H; by apply dec_stable in H
       end.
Qed.

(** X9.  When the Validator returns, the job is settled: either it is
    FAILED, with [finishedAt] set, or it is PENDING and its message is the
    last of the queue. *)
Theorem validator_return_means_settled w ev resp :
  let r := Validator.lambda_handler ev w in
  outcome_of r = Ret resp ->
  exists bucket key,
    s3_location ev = Some (bucket, key) /\
    ((resp = [("status", AS "failed"); ("jobId", AS (job_id_of key))] /\
      job_status (world_of r) (job_id_of key) = Some "FAILED" /\
      job_is_set (world_of r) (job_id_of key) "finishedAt" = true) \/
     (resp = [("status", AS "ok"); ("jobId", AS (job_id_of key))] /\
      job_status (world_of r) (job_id_of key) = Some "PENDING" /\
      last (queue (world_of r)) = Some (mkMessage (job_id_of key) bucket key))).
Proof.
  intros r. subst r. unfold job_id_of, s3_location. wp_handler. wp_run.
  all: intros Ho; try discriminate Ho.
  all: injection Ho as <-; do 2 eexists; resolve_goal; split; [reflexivity|].
  all: first [ left; splits; [reflexivity|solve_record|solve_record]
             | right; splits; [reflexivity|solve_record|apply last_snoc] ].
Qed.

Lemma validator_return_means_settled_witness :
  exists bucket key,
    s3_location upload_a = Some (bucket, key) /\
    job_status (world_of (Validator.lambda_handler upload_a (uploaded file_B)))
      (job_id_of key) = Some "FAILED".
Proof.
  destruct (validator_return_means_settled (uploaded file_B) upload_a
              [("status", AS "failed"); ("jobId", AS "a")] eq_refl)
    as (bucket & key & Hloc & [(_ & Hs & _)|(Hr & _)]).
  - exists bucket, key. split; [exact Hloc|exact Hs].
  - exfalso. discriminate Hr.
Defined.

(* ===================================================================== *)
(** * The rows that the conversions keep *)
(* ===================================================================== *)

Lemma rows_list_total rs :
  (exists data, rows_list rs = Some data) \/ rows_list rs = None.
Proof. destruct (rows_list rs); eauto. Qed.

Lemma convert_rows content records n :
  Processor.convert content = inr (records, n) ->
  exists data,
    rows_list (Csv.rows (Csv.dict_reader content)) = Some data /\
    records = record_of <$> filter row_valid data /\
    n = length (filter (fun row => ¬ row_valid row) data).
Proof.
  unfold Processor.convert. intros Hc.
  destruct (rows_list_total (Csv.rows (Csv.dict_reader content))) as [[data Hd]|Hd].
  - rewrite (processor_process_rows _ data) in Hc by done.
    injection Hc as <- <-. eauto.
  - destruct (proj1 (process_rows_error _ Hd) [] 0%nat) as [e He]. congruence.
Qed.

Lemma record_of_filled row : row_valid row -> filled (record_of row).
Proof.
  unfold row_valid, REQUIRED_COLUMNS, filled, record_of, item. intros Hv.
  inversion Hv as [|? ? H1 Hv1]; subst. inversion Hv1 as [|? ? H2 Hv2]; subst.
  inversion Hv2 as [|? ? H3 _]; subst. cbn [rec_id rec_value rec_timestamp].
  destruct (Csv.get row "id"), (Csv.get row "value"), (Csv.get row "timestamp"); done.
Qed.

Lemma valid_records_filled (data : list (gmap string (option string))) :
  Forall filled (record_of <$> filter row_valid data).
Proof.
  apply Forall_fmap, Forall_forall. intros row Hrow.
  apply list_elem_of_filter in Hrow as [Hv _]. by apply record_of_filled.
Qed.

(** X10.  Every record that the Converter returns has a non-empty [id],
    [value] and [timestamp]; the rows of the file were read without error,
    and the records and the errors add up to the number of those rows. *)
Theorem converted_records_are_filled content records n :
  Processor.convert content = inr (records, n) ->
  Forall filled records /\
  exists data, rows_list (Csv.rows (Csv.dict_reader content)) = Some data /\
               (length records + n = length data)%nat.
Proof.
  intros Hc. destruct (convert_rows _ _ _ Hc) as (data & Hd & -> & ->). split.
  - apply valid_records_filled.
  - exists data. split; [done|]. rewrite length_fmap.
    symmetry. apply filter_partition_length.
Qed.

Lemma converted_records_are_filled_witness :
  Forall filled (record_of <$> filter row_valid data_D).
Proof.
  refine (proj1 (converted_records_are_filled file_D (record_of <$> filter row_valid data_D)
                   (length (filter (fun row => ¬ row_valid row) data_D)) _)).
  vm_compute. reflexivity.
Defined.

(** X11.  Whatever [validate_and_process_csv] returns, its counts add up
    ([row_count] is the number of records plus [error_count]), its records
    have non-empty fields, and [ok] is false exactly when the header lacks
    a required column, in which case nothing is counted or returned. *)
Theorem validate_result_invariants body result :
  Monolith.validate_and_process_csv body = inr result ->
  Monolith.row_count result
    = (length (Monolith.records result) + Monolith.error_count result)%nat /\
  Forall filled (Monolith.records result) /\
  exists header,
    Csv.fieldnames (Csv.dict_reader body) = inr header /\
    (Monolith.ok result = false <-> missing_columns (default [] header) ≠ []) /\
    (Monolith.ok result = false ->
     Monolith.row_count result = 0%nat /\ Monolith.records result = []).
Proof.
  unfold Monolith.validate_and_process_csv.
  destruct (Csv.fieldnames (Csv.dict_reader body)) as [e|header]; [done|].
  case_bool_decide as Hm.
  - intros [= <-]. cbn [Monolith.ok Monolith.row_count Monolith.records Monolith.error_count length Nat.add]. splits; [done|constructor|]. exists header. splits; done.
  - destruct (rows_list_total (Csv.rows (Csv.dict_reader body))) as [[data Hd]|Hd].
    + rewrite (monolith_process_rows _ data) by done. intros [= <-].
      cbn [Monolith.ok Monolith.row_count Monolith.records Monolith.error_count app Nat.add].
      splits.
      * rewrite length_fmap, (filter_partition_length row_valid data). lia.
      * apply valid_records_filled.
      * exists header. splits; [done| |done]. split; [done|]. intros Hn. by destruct Hn.
    + destruct (proj2 (process_rows_error _ Hd) [] 0%nat 0%nat) as [e He]. congruence.
Qed.

Lemma validate_result_invariants_witness :
  Monolith.row_count (Monolith.mkResult false "Missing required columns: ['timestamp']" 0 0 [])
  = 0%nat.
Proof.
  refine (proj1 (validate_result_invariants file_B
                   (Monolith.mkResult false "Missing required columns: ['timestamp']" 0 0 [])
                   _)).
  vm_compute. reflexivity.
Defined.

(* ===================================================================== *)
(** * The paths of the Converter *)
(* ===================================================================== *)

Lemma zip_restval_names names row : (Csv.zip_restval names row).*1 = names.
Proof.
  revert row. induction names as [|n names IH]; intros row; [done|].
  destruct row as [|v row]; cbn [Csv.zip_restval fmap list_fmap fst]; f_equal; apply IH.
Qed.

(** A name that the header lacks is bound in no row. *)
Lemma get_dict_row_missing names row col :
  col ∉ names -> Csv.get (Csv.dict_row names row) col = None.
Proof.
  intros Hcol. unfold Csv.get, Csv.dict_row.
  rewrite (not_elem_of_list_to_map_1 _ col); [done|].
  rewrite fmap_reverse, elem_of_reverse, zip_restval_names. done.
Qed.

Lemma dict_rows_of_header names rs data :
  rows_list (Csv.dict_rows names rs) = Some data ->
  Forall (fun d => exists row, d = Csv.dict_row names row) data.
Proof.
  revert data. induction rs as [|row rest IH|e]; intros data; cbn [Csv.dict_rows].
  - intros [= <-]. constructor.
  - destruct row as [|v row]; [apply IH|]. cbn [rows_list].
    destruct (rows_list (Csv.dict_rows names rest)) as [data'|]; [|done].
    intros [= <-]. constructor; eauto.
  - done.
Qed.

Lemma rows_of_dict_reader content header data :
  Csv.fieldnames (Csv.dict_reader content) = inr header ->
  rows_list (Csv.rows (Csv.dict_reader content)) = Some data ->
  Forall (fun d => exists row, d = Csv.dict_row (default [] header) row) data.
Proof.
  unfold Csv.dict_reader. destruct (Csv.csv_reader content) as [|h rest|e]; cbn.
  - intros _ [= <-]. constructor.
  - intros [= <-]. apply dict_rows_of_header.
  - done.
Qed.

(** Under a header that lacks a required column no row is valid. *)
Lemma no_valid_row_without_column content header data :
  Csv.fieldnames (Csv.dict_reader content) = inr header ->
  missing_columns (default [] header) ≠ [] ->
  rows_list (Csv.rows (Csv.dict_reader content)) = Some data ->
  filter row_valid data = [] /\
  length (filter (fun row => ¬ row_valid row) data) = length data.
Proof.
  intros Hh Hm Hd.
  destruct (missing_columns (default [] header)) as [|col cols] eqn:Hcols; [done|].
  assert (Hcol : col ∈ REQUIRED_COLUMNS /\ col ∉ default [] header).
  { apply missing_columns_spec. rewrite Hcols. by left. }
  destruct Hcol as [Hreq Hnot].
  pose proof (rows_of_dict_reader _ _ _ Hh Hd) as Hrows.
  assert (Hinv : Forall (fun row => ¬ row_valid row) data).
  { eapply Forall_impl; [exact Hrows|]. intros d [row ->] Hv.
    unfold row_valid in Hv. rewrite Forall_forall in Hv.
    specialize (Hv col Hreq). by rewrite get_dict_row_missing in Hv. }
  clear Hrows Hd. induction Hinv as [|row data Hrow _ IH]; [done|].
  rewrite filter_cons_False by done.
  rewrite (filter_cons_True (fun row => ¬ row_valid row)) by done.
  destruct IH as [-> IH2]. cbn [length]. by rewrite IH2.
Qed.

Lemma delivered_first ev m :
  delivered ev = Some m -> exists rest, ev = mkSQSEvent (mkSQSRecord m :: rest).
Proof.
  destruct ev as [[|[m'] rest]]; unfold delivered; cbn; [done|].
  intros [= <-]. eauto.
Qed.

Ltac converter_path :=
  repeat match goal with
         | H : delivered _ = Some _ |- _ => apply delivered_first in H as [? ->]
         end;
  unfold output_location in *; wp_handler; wp_run;
  try (by excluded); tidy.

(** X12.  The Converter does not check the header.  On a file whose
    header lacks a required column it counts every row as an error, puts
    the empty array and ends the job COMPLETED. *)
Theorem converter_without_header_check w ev m content header data :
  reliable w ->
  delivered ev = Some m ->
  objects w !! (msg_bucket m, msg_key m) = Some content ->
  Csv.fieldnames (Csv.dict_reader content) = inr header ->
  missing_columns (default [] header) ≠ [] ->
  rows_list (Csv.rows (Csv.dict_reader content)) = Some data ->
  let r := Processor.lambda_handler ev w in
  job_status (world_of r) (msg_jobId m) = Some "COMPLETED" /\
  job_attr (world_of r) (msg_jobId m) "rowCount" = Some (AN (Z.of_nat (length data))) /\
  job_attr (world_of r) (msg_jobId m) "errorCount" = Some (AN (Z.of_nat (length data))) /\
  objects (world_of r) !! output_location w m = Some "[]".
Proof.
  intros Hrel Hev Hobj Hh Hm Hd r. subst r.
  destruct (no_valid_row_without_column _ _ _ Hh Hm Hd) as [Hv Hn].
  assert (Hc : Processor.convert content = inr ([], length data)).
  { unfold Processor.convert. rewrite (processor_process_rows _ data) by done.
    by rewrite Hv, Hn. }
  clear Hh Hm Hd Hv Hn. unfold job_status, job_attr. reliable_world w. converter_path.
  splits; [solve_status|solve_attr|solve_attr|].
  rewrite lookup_insert_eq. reflexivity.
Qed.

(** A header without [timestamp], delivered to the Converter. *)
Lemma converter_without_header_check_witness :
  let r := Processor.lambda_handler (delivery message_a) (uploaded file_B) in
  job_status (world_of r) "a" = Some "COMPLETED" /\
  job_attr (world_of r) "a" "errorCount" = Some (AN 1) /\
  objects (world_of r) !! ("ingest", "processed/a/output.json") = Some "[]".
Proof.
  intros r.
  pose proof (converter_without_header_check (uploaded file_B) (delivery message_a) message_a
                file_B (Some ["id"; "value"])
                [Csv.dict_row ["id"; "value"] ["1"; "10"]]
                eq_refl eq_refl eq_refl eq_refl) as H.
  destruct H as (H1 & _ & H3 & H4); [by vm_compute|vm_compute; reflexivity|].
  splits; [exact H1|exact H3|exact H4].
Defined.

(** X13.  When no call fails and the rows of the object are read, the
    Converter calls the table, the bucket, the bucket and the table, puts
    the records of the valid rows under the job's output prefix, records
    that prefix and returns the number of data rows. *)
Theorem converter_succeeds w ev m content data :
  reliable w ->
  delivered ev = Some m ->
  objects w !! (msg_bucket m, msg_key m) = Some content ->
  rows_list (Csv.rows (Csv.dict_reader content)) = Some data ->
  let r := Processor.lambda_handler ev w in
  outcome_of r = Ret [("status", AS "ok"); ("jobId", AS (msg_jobId m));
                      ("rowCount", AN (Z.of_nat (length data)))] /\
  calls (trace_of r)
    = [(KUpdateItem, true); (KGetObject, true); (KPutObject, true); (KUpdateItem, true)] /\
  objects (world_of r)
    = <[ output_location w m := Json.dumps_indent2 (record_of <$> filter row_valid data) ]>
        (objects w) /\
  job_attr (world_of r) (msg_jobId m) "s3OutputPrefix"
    = Some (AS (PROCESSED_PREFIX w ++ msg_jobId m ++ "/")) /\
  job_attr (world_of r) (msg_jobId m) "rowCount" = Some (AN (Z.of_nat (length data))) /\
  job_is_set (world_of r) (msg_jobId m) "finishedAt" = true.
Proof.
  intros Hrel Hev Hobj Hd r. subst r.
  assert (Hc : Processor.convert content
               = inr (record_of <$> filter row_valid data,
                      length (filter (fun row => ¬ row_valid row) data))).
  { unfold Processor.convert. by rewrite (processor_process_rows _ data). }
  pose proof (filter_partition_length row_valid data) as Hlen.
  rewrite <- (length_fmap record_of (filter row_valid data)) in Hlen.
  clear Hd. unfold job_attr, job_is_set. reliable_world w. converter_path.
  rewrite <- Hlen.
  splits; [reflexivity|reflexivity|reflexivity|solve_attr|solve_attr|solve_is_set].
Qed.

Lemma converter_succeeds_witness :
  let r := Processor.lambda_handler (delivery message_a) (uploaded file_A) in
  outcome_of r = Ret [("status", AS "ok"); ("jobId", AS "a"); ("rowCount", AN 1)] /\
  job_attr (world_of r) "a" "s3OutputPrefix" = Some (AS "processed/a/").
Proof.
  intros r.
  pose proof (converter_succeeds (uploaded file_A) (delivery message_a) message_a file_A
                [Csv.dict_row header_D ["1"; "10"; "2024-01-01T00:00:00Z"]]
                eq_refl eq_refl eq_refl) as H.
  destruct H as (H1 & _ & _ & H4 & _); [vm_compute; reflexivity|].
  split; [exact H1|exact H4].
Defined.

(** X14.  When the csv reader rejects the text of the object the
    Converter raises the reader's error; nothing is put to the bucket and
    no call follows the fetch, so the record stays PROCESSING. *)
Theorem converter_csv_error w ev m content e :
  reliable w ->
  delivered ev = Some m ->
  objects w !! (msg_bucket m, msg_key m) = Some content ->
  Processor.convert content = inl e ->
  let r := Processor.lambda_handler ev w in
  outcome_of r = Raise e /\
  calls (trace_of r) = [(KUpdateItem, true); (KGetObject, true)] /\
  objects (world_of r) = objects w /\
  job_status (world_of r) (msg_jobId m) = Some "PROCESSING".
Proof.
  intros Hrel Hev Hobj Hc r. subst r. unfold job_status. reliable_world w. converter_path.
  splits; [reflexivity|reflexivity|reflexivity|solve_status].
Qed.

Lemma converter_csv_error_witness :
  let r := Processor.lambda_handler (delivery message_a) (uploaded file_E) in
  outcome_of r = Raise Csv.newline_error /\
  job_status (world_of r) "a" = Some "PROCESSING".
Proof.
  intros r.
  pose proof (converter_csv_error (uploaded file_E) (delivery message_a) message_a file_E
                Csv.newline_error eq_refl eq_refl eq_refl) as H.
  destruct H as (H1 & _ & _ & H4); [vm_compute; reflexivity|].
  split; [exact H1|exact H4].
Defined.

(** An update leaves the attributes that it does not name. *)
Lemma updated_keep j (u : gmap string Attr) old k :
  u !! k = None -> k ≠ "jobId" ->
  updated j u old !! k = old ≫= (fun it : gmap string Attr => it !! k).
Proof.
  intros Hu Hk. unfold updated. rewrite lookup_union_r by done.
  destruct old as [it|]; cbn; [done|]. by rewrite lookup_singleton_ne.
Qed.

Lemma job_attr_updated_keep (t : gmap string (gmap string Attr)) j u j' k :
  u !! k = None -> k ≠ "jobId" ->
  (<[ j := updated j u (t !! j) ]> t) !! j' ≫= (fun it : gmap string Attr => it !! k)
  = t !! j' ≫= (fun it : gmap string Attr => it !! k).
Proof.
  intros Hu Hk. destruct (decide (j = j')) as [<-|Hj].
  - rewrite lookup_insert_eq. cbn. by apply updated_keep.
  - by rewrite lookup_insert_ne.
Qed.

(** The attribute is none of those that the Converter writes. *)
Ltac unwritten :=
  match goal with
  | H : _ ∉ _ |- _ =>
      unfold converter_attributes in H; rewrite !not_elem_of_cons in H; destruct_and!
  end;
  first [ congruence
        | repeat (rewrite lookup_insert_ne by congruence);
          apply lookup_singleton_ne; congruence ].

(** X15.  Whatever the event, the table, the bucket and the faults, the
    Converter leaves the queue as it was, writes no attribute but those of
    [converter_attributes] (and the key [jobId]), touches the record of
    no other job, and changes the bucket at most at the output location
    of the message. *)
Theorem converter_footprint w ev :
  let r := Processor.lambda_handler ev w in
  queue (world_of r) = queue w /\
  (forall j k, k ∉ "jobId" :: converter_attributes ->
               job_attr (world_of r) j k = job_attr w j k) /\
  (forall j, target ev ≠ Some j -> table (world_of r) !! j = table w !! j) /\
  (forall loc, output_location w <$> delivered ev ≠ Some loc ->
               objects (world_of r) !! loc = objects w !! loc).
Proof.
  intros r. subst r. unfold job_attr, target, delivered, output_location.
  wp_handler. wp_run.
  all: cbn [head fmap option_fmap option_map].
  all: splits; [reflexivity|intros j k Hk|intros j Hj|intros loc Hloc].
  all: try reflexivity.
  all: rewrite ?job_attr_updated_keep by unwritten; try reflexivity.
  all: try (rewrite ?lookup_insert_ne by congruence; reflexivity).
Qed.

(** X16.  The Converter returns only after the whole conversion: when it
    returns, under any faults, the object of the message was read, its
    rows were read without error, the records of the valid rows are at
    the output location, and the job is COMPLETED with the number of data
    rows. *)
Theorem converter_return_means_completed w ev resp :
  let r := Processor.lambda_handler ev w in
  outcome_of r = Ret resp ->
  exists m content data,
    delivered ev = Some m /\
    objects w !! (msg_bucket m, msg_key m) = Some content /\
    rows_list (Csv.rows (Csv.dict_reader content)) = Some data /\
    resp = [("status", AS "ok"); ("jobId", AS (msg_jobId m));
            ("rowCount", AN (Z.of_nat (length data)))] /\
    objects (world_of r) !! output_location w m
      = Some (Json.dumps_indent2 (record_of <$> filter row_valid data)) /\
    job_status (world_of r) (msg_jobId m) = Some "COMPLETED" /\
    job_attr (world_of r) (msg_jobId m) "rowCount" = Some (AN (Z.of_nat (length data))).
Proof.
  intros r. subst r. unfold delivered, output_location, job_status, job_attr.
  wp_handler. wp_run.
  all: intros Ho; try discriminate Ho.
  injection Ho as <-.
  lazymatch goal with
  | H : Processor.convert ?c = inr _, s : SQSRecord |- _ =>
      destruct (convert_rows _ _ _ H) as (data & Hd & Hrec & Hn);
      exists (record_body s), c, data
  end.
  pose proof (filter_partition_length row_valid data) as Hlen.
  subst. rewrite length_fmap, <- Hlen.
  cbn [head fmap option_fmap option_map].
  splits; [reflexivity|assumption|assumption|reflexivity| |solve_status|solve_attr].
  world_simpl. rewrite lookup_insert_eq. reflexivity.
Qed.

Lemma converter_return_means_completed_witness :
  exists m content data,
    delivered (delivery message_a) = Some m /\
    objects (uploaded file_C) !! (msg_bucket m, msg_key m) = Some content /\
    rows_list (Csv.rows (Csv.dict_reader content)) = Some data /\
    length data = 1%nat.
Proof.
  destruct (converter_return_means_completed (uploaded file_C) (delivery message_a)
              [("status", AS "ok"); ("jobId", AS "a"); ("rowCount", AN 1)] eq_refl)
    as (m & content & data & H1 & H2 & H3 & H4 & _).
  exists m, content, data. splits; [exact H1|exact H2|exact H3|].
  injection H4 as H4. lia.
Defined.

(** X17.  When the last update of the table fails the Converter raises
    with the output already in the bucket: the object is at the output
    location and the record still says PROCESSING. *)
Theorem converter_output_without_completion w ev m content records n e :
  delivered ev = Some m ->
  next_fault w = None ->
  next_fault (pop w) = None ->
  next_fault (pop (pop w)) = None ->
  next_fault (pop (pop (pop w))) = Some e ->
  objects w !! (msg_bucket m, msg_key m) = Some content ->
  Processor.convert content = inr (records, n) ->
  let r := Processor.lambda_handler ev w in
  outcome_of r = Raise e /\
  calls (trace_of r)
    = [(KUpdateItem, true); (KGetObject, true); (KPutObject, true); (KUpdateItem, false)] /\
  objects (world_of r) !! output_location w m = Some (Json.dumps_indent2 records) /\
  job_status (world_of r) (msg_jobId m) = Some "PROCESSING".
Proof.
  intros Hev H1 H2 H3 H4 Hobj Hc r. subst r. unfold job_status. converter_path.
  splits; [reflexivity|reflexivity|by rewrite lookup_insert_eq|solve_status].
Qed.

Lemma converter_output_without_completion_witness :
  let w := scripted [None; None; None; Some "table throttled"] (uploaded file_A) in
  let r := Processor.lambda_handler (delivery message_a) w in
  outcome_of r = Raise "table throttled" /\
  is_Some (objects (world_of r) !! ("ingest", "processed/a/output.json")) /\
  job_status (world_of r) "a" = Some "PROCESSING".
Proof.
  intros w r.
  pose proof (converter_output_without_completion w (delivery message_a) message_a file_A
                [mkRec "1" "10" "2024-01-01T00:00:00Z"] 0 "table throttled"
                eq_refl eq_refl eq_refl eq_refl eq_refl eq_refl) as H.
  destruct H as (H1 & _ & H3 & H4); [vm_compute; reflexivity|].
  splits; [exact H1|by eexists|exact H4].
Defined.

(* ===================================================================== *)
(** * The paths of the monolithic handler *)
(* ===================================================================== *)

Ltac monolith_path :=
  unfold monolith_output, monolith_job, job_id_of in *; wp_handler;
  repeat match goal with
         | H : Monolith.extract _ _ = _ |- _ => rewrite H
         end;
  wp_run; try (by excluded); tidy.

(** X18.  When the first write of the record fails the monolithic handler
    returns an error that carries the text of the exception, after that
    one call: the table, the bucket and the queue are as they were. *)
Theorem monolith_initial_write_failure unquote_plus w ev e :
  next_fault w = Some e ->
  let r := Monolith.lambda_handler unquote_plus ev w in
  outcome_of r = Ret [("status", AS "error");
                      ("message", AS ("Failed to write initial job record: " ++ e))] /\
  calls (trace_of r) = [(KPutItem, false)] /\
  table (world_of r) = table w /\
  objects (world_of r) = objects w /\
  queue (world_of r) = queue w.
Proof.
  intros H1 r. subst r. monolith_path.
  all: splits; reflexivity.
Qed.

Lemma monolith_initial_write_failure_witness :
  let w := scripted [Some "table throttled"] (uploaded file_A) in
  let r := Monolith.lambda_handler Monolith.unquote_plus_ascii upload_a w in
  outcome_of r = Ret [("status", AS "error");
                      ("message", AS "Failed to write initial job record: table throttled")] /\
  table (world_of r) = ∅.
Proof.
  intros w r.
  destruct (monolith_initial_write_failure Monolith.unquote_plus_ascii w upload_a
              "table throttled" eq_refl) as (H1 & _ & H3 & _).
  split; [exact H1|exact H3].
Defined.

(** X19.  When the csv reader rejects the text of the object the
    monolithic handler marks the job FAILED with the message "Processing
    error: " and the reader's error, puts nothing and returns. *)
Theorem monolith_processing_error unquote_plus w ev bucket key body e :
  reliable w ->
  Monolith.extract unquote_plus ev = (Some bucket, Some key) ->
  Py.truthy (Some bucket) = true ->
  Py.truthy (Some key) = true ->
  objects w !! (bucket, key) = Some body ->
  Monolith.validate_and_process_csv body = inl e ->
  let job_id := job_id_of key in
  let r := Monolith.lambda_handler unquote_plus ev w in
  outcome_of r = Ret (Monolith.failed job_id) /\
  calls (trace_of r) = [(KPutItem, true); (KGetObject, true); (KUpdateItem, true)] /\
  objects (world_of r) = objects w /\
  job_status (world_of r) job_id = Some "FAILED" /\
  job_is_set (world_of r) job_id "finishedAt" = true /\
  job_attr (world_of r) job_id "message" = Some (AS ("Processing error: " ++ e)).
Proof.
  intros Hrel Hex Hb Hk Hobj Hres job_id r. subst r job_id.
  unfold job_status, job_attr, job_is_set. reliable_world w. monolith_path.
  splits; [reflexivity|reflexivity|reflexivity|solve_status|solve_is_set|solve_attr].
Qed.

Lemma monolith_processing_error_witness :
  let r := Monolith.lambda_handler Monolith.unquote_plus_ascii upload_a (uploaded file_E) in
  outcome_of r = Ret [("status", AS "failed"); ("jobId", AS "a")] /\
  job_attr (world_of r) "a" "message"
    = Some (AS ("Processing error: " ++ Csv.newline_error)).
Proof.
  intros r.
  destruct (monolith_processing_error Monolith.unquote_plus_ascii (uploaded file_E) upload_a
              "ingest" "uploads/a.csv" file_E Csv.newline_error
              eq_refl eq_refl eq_refl eq_refl eq_refl eq_refl) as (H1 & _ & _ & _ & _ & H6).
  split; [exact H1|exact H6].
Defined.

(** X20.  When the write of the output object fails the monolithic
    handler marks the job FAILED with the text of the exception and
    returns; the bucket is as it was. *)
Theorem monolith_output_failure unquote_plus w ev bucket key body result e :
  Monolith.extract unquote_plus ev = (Some bucket, Some key) ->
  Py.truthy (Some bucket) = true ->
  Py.truthy (Some key) = true ->
  next_fault w = None ->
  next_fault (pop w) = None ->
  next_fault (pop (pop w)) = Some e ->
  next_fault (pop (pop (pop w))) = None ->
  objects w !! (bucket, key) = Some body ->
  Monolith.validate_and_process_csv body = inr result ->
  (0 < Monolith.row_count result)%nat ->
  (0 < length (Monolith.records result))%nat ->
  let job_id := job_id_of key in
  let r := Monolith.lambda_handler unquote_plus ev w in
  outcome_of r = Ret (Monolith.failed job_id) /\
  calls (trace_of r)
    = [(KPutItem, true); (KGetObject, true); (KPutObject, false); (KUpdateItem, true)] /\
  objects (world_of r) = objects w /\
  job_status (world_of r) job_id = Some "FAILED" /\
  job_attr (world_of r) job_id "message"
    = Some (AS ("Failed to write processed output or update job: " ++ e)).
Proof.
  intros Hex Hb Hk H1 H2 H3 H4 Hobj Hres Hrow Hrec job_id r. subst r job_id.
  assert (Hrow' : bool_decide (0 < Monolith.row_count result)%nat = true)
    by (by apply bool_decide_eq_true_2).
  assert (Hrec' : bool_decide (0 < length (Monolith.records result))%nat = true)
    by (by apply bool_decide_eq_true_2).
  clear Hrow Hrec.
  unfold job_status, job_attr. monolith_path.
  splits; [reflexivity|reflexivity|reflexivity|solve_status|solve_attr].
Qed.

Lemma monolith_output_failure_witness :
  let w := scripted [None; None; Some "S3 write failed"] (uploaded file_A) in
  let r := Monolith.lambda_handler Monolith.unquote_plus_ascii upload_a w in
  outcome_of r = Ret [("status", AS "failed"); ("jobId", AS "a")] /\
  job_status (world_of r) "a" = Some "FAILED".
Proof.
  intros w r.
  pose proof (monolith_output_failure Monolith.unquote_plus_ascii w upload_a
                "ingest" "uploads/a.csv" file_A
                (Monolith.mkResult true "Processed" 1 0 [mkRec "1" "10" "2024-01-01T00:00:00Z"])
                "S3 write failed"
                eq_refl eq_refl eq_refl eq_refl eq_refl eq_refl eq_refl eq_refl) as H.
  destruct H as (H1 & _ & _ & H4 & _);
    [vm_compute; reflexivity|cbn; lia|cbn; lia|].
  split; [exact H1|exact H4].
Defined.

(** X21.  When the output object is written and the update that should
    complete the job fails, the handler marks the job FAILED and returns:
    the output of a FAILED job is in the bucket. *)
Theorem monolith_failed_with_output unquote_plus w ev bucket key body result e :
  Monolith.extract unquote_plus ev = (Some bucket, Some key) ->
  Py.truthy (Some bucket) = true ->
  Py.truthy (Some key) = true ->
  next_fault w = None ->
  next_fault (pop w) = None ->
  next_fault (pop (pop w)) = None ->
  next_fault (pop (pop (pop w))) = Some e ->
  next_fault (pop (pop (pop (pop w)))) = None ->
  objects w !! (bucket, key) = Some body ->
  Monolith.validate_and_process_csv body = inr result ->
  (0 < Monolith.row_count result)%nat ->
  (0 < length (Monolith.records result))%nat ->
  let job_id := job_id_of key in
  let r := Monolith.lambda_handler unquote_plus ev w in
  outcome_of r = Ret (Monolith.failed job_id) /\
  calls (trace_of r)
    = [(KPutItem, true); (KGetObject, true); (KPutObject, true);
       (KUpdateItem, false); (KUpdateItem, true)] /\
  objects (world_of r) !! monolith_output unquote_plus ev w
    = Some (Json.dumps (Monolith.records result)) /\
  job_status (world_of r) job_id = Some "FAILED" /\
  job_is_set (world_of r) job_id "s3OutputPrefix" = false.
Proof.
  intros Hex Hb Hk H1 H2 H3 H4 H5 Hobj Hres Hrow Hrec job_id r. subst r job_id.
  assert (Hrow' : bool_decide (0 < Monolith.row_count result)%nat = true)
    by (by apply bool_decide_eq_true_2).
  assert (Hrec' : bool_decide (0 < length (Monolith.records result))%nat = true)
    by (by apply bool_decide_eq_true_2).
  clear Hrow Hrec.
  unfold job_status, job_is_set. monolith_path.
  splits; [reflexivity|reflexivity| |solve_status|].
  - apply lookup_insert_eq.
  - rewrite !lookup_insert_eq. vm_compute. reflexivity.
Qed.

Lemma monolith_failed_with_output_witness :
  let w := scripted [None; None; None; Some "table throttled"] (uploaded file_A) in
  let r := Monolith.lambda_handler Monolith.unquote_plus_ascii upload_a w in
  outcome_of r = Ret [("status", AS "failed"); ("jobId", AS "a")] /\
  is_Some (objects (world_of r) !! ("ingest", "processed/a/output.json")) /\
  job_status (world_of r) "a" = Some "FAILED".
Proof.
  intros w r.
  pose proof (monolith_failed_with_output Monolith.unquote_plus_ascii w upload_a
                "ingest" "uploads/a.csv" file_A
                (Monolith.mkResult true "Processed" 1 0 [mkRec "1" "10" "2024-01-01T00:00:00Z"])
                "table throttled"
                eq_refl eq_refl eq_refl eq_refl eq_refl eq_refl eq_refl eq_refl eq_refl) as H.
  destruct H as (H1 & _ & H3 & H4 & _);
    [vm_compute; reflexivity|cbn; lia|cbn; lia|].
  splits; [exact H1|eexists; exact H3|exact H4].
Defined.

(** X22.  The monolithic handler raises only from a failed update of the
    table: when an invocation raises, under any event and any faults, the
    first write of the record succeeded and the last call is an update
    that failed. *)
Theorem monolith_raise_means_update_failed unquote_plus w ev e :
  let r := Monolith.lambda_handler unquote_plus ev w in
  outcome_of r = Raise e ->
  head (calls (trace_of r)) = Some (KPutItem, true) /\
  last (calls (trace_of r)) = Some (KUpdateItem, false).
Proof.
  intros r. subst r. wp_handler. wp_run.
  all: intros Ho; try discriminate Ho.
  all: split; reflexivity.
Qed.

Lemma monolith_raise_means_update_failed_witness :
  let w := scripted [None; None; Some "table throttled"] empty_bucket in
  let r := Monolith.lambda_handler Monolith.unquote_plus_ascii upload_a w in
  outcome_of r = Raise "table throttled" /\
  last (calls (trace_of r)) = Some (KUpdateItem, false).
Proof.
  intros w r. split; [reflexivity|].
  exact (proj2 (monolith_raise_means_update_failed Monolith.unquote_plus_ascii w upload_a
                  "table throttled" eq_refl)).
Defined.

(** X23.  Whatever the event, the table, the bucket and the faults, the
    monolithic handler leaves the queue as it was, touches the record of
    no job but its own, and changes the bucket at most at the output
    location of its job. *)
Theorem monolith_footprint unquote_plus w ev :
  let r := Monolith.lambda_handler unquote_plus ev w in
  queue (world_of r) = queue w /\
  (forall j, j ≠ monolith_job unquote_plus ev w ->
             table (world_of r) !! j = table w !! j) /\
  (forall loc, loc ≠ monolith_output unquote_plus ev w ->
               objects (world_of r) !! loc = objects w !! loc).
Proof.
  intros r. subst r. unfold monolith_output, monolith_job, job_id_of.
  wp_handler. destruct (Monolith.extract unquote_plus ev) as [bucket key].
  cbn [fst snd]. wp_run.
  all: splits; [reflexivity|intros j Hj|intros loc Hloc].
  all: try reflexivity.
  all: try (rewrite ?lookup_insert_ne by congruence; reflexivity).
Qed.

(** X24.  What a return of the monolithic handler says of the record.  An
    error is returned with the table as it was; [failed] is returned with
    the job FAILED and [finishedAt] set; [ok] is returned with the job in
    a successful status, the counts of the answer in the record, and the
    output prefix of the job recorded. *)
Theorem monolith_return_means_settled unquote_plus w ev resp :
  let r := Monolith.lambda_handler unquote_plus ev w in
  let job_id := monolith_job unquote_plus ev w in
  outcome_of r = Ret resp ->
  (exists e, resp = [("status", AS "error");
                     ("message", AS ("Failed to write initial job record: " ++ e))] /\
             table (world_of r) = table w) \/
  (resp = Monolith.failed job_id /\
   job_status (world_of r) job_id = Some "FAILED" /\
   job_is_set (world_of r) job_id "finishedAt" = true) \/
  (exists rows errors,
     resp = [("status", AS "ok"); ("jobId", AS job_id);
             ("rowCount", AN rows); ("errorCount", AN errors)] /\
     job_status (world_of r) job_id
       = Some (if decide (errors = 0%Z) then "COMPLETED" else "COMPLETED_WITH_ERRORS") /\
     job_attr (world_of r) job_id "rowCount" = Some (AN rows) /\
     job_attr (world_of r) job_id "errorCount" = Some (AN errors) /\
     job_attr (world_of r) job_id "s3OutputPrefix"
       = Some (AS (PROCESSED_PREFIX w ++ job_id ++ "/")) /\
     job_is_set (world_of r) job_id "finishedAt" = true).
Proof.
  intros r job_id. subst r job_id. unfold monolith_job, job_id_of.
  unfold job_status, job_attr, job_is_set.
  wp_handler. destruct (Monolith.extract unquote_plus ev) as [bucket key].
  cbn [fst snd]. wp_run.
  all: intros Ho; try discriminate Ho.
  all: injection Ho as <-.
  all: first
    [ left; eexists; split; reflexivity
    | right; left; splits; [reflexivity|solve_status|solve_is_set]
    | right; right; do 2 eexists;
      splits; [reflexivity| |solve_attr|solve_attr|solve_attr|solve_is_set] ].
  all: rewrite job_status_updated by (vm_compute; reflexivity).
  all: unfold status_of; rewrite lookup_insert_eq.
  all: repeat case_decide; try reflexivity; lia.
Qed.

Lemma monolith_return_means_settled_witness :
  let r := Monolith.lambda_handler Monolith.unquote_plus_ascii upload_a (uploaded file_C) in
  job_status (world_of r) "a" = Some "COMPLETED_WITH_ERRORS".
Proof.
  intros r.
  destruct (monolith_return_means_settled Monolith.unquote_plus_ascii (uploaded file_C)
              upload_a
              [("status", AS "ok"); ("jobId", AS "a"); ("rowCount", AN 1); ("errorCount", AN 1)]
              eq_refl) as [(e & He & _)|[(Hf & _)|(rows & errors & Hr & Hs & _)]].
  - discriminate He.
  - discriminate Hf.
  - injection Hr as <- <-. exact Hs.
Defined.

(* ===================================================================== *)
(** * The job identifier of a key *)
(* ===================================================================== *)

Lemma append_cons a s t : String a s ++ t = String a (s ++ t).
Proof. reflexivity. Qed.

Lemma append_empty t : EmptyString ++ t = t.
Proof. reflexivity. Qed.

Lemma existsb_lacks c s :
  existsb (Ascii.eqb c) (list_ascii_of_string s) = negb (lacks c s).
Proof.
  induction s as [|a s IH]; [reflexivity|].
  cbn [list_ascii_of_string existsb lacks]. rewrite IH, (Ascii.eqb_sym c a).
  by destruct (Ascii.eqb a c), (lacks c s).
Qed.

Lemma lacks_append c s t : lacks c (s ++ t) = lacks c s && lacks c t.
Proof.
  induction s as [|a s IH]; [reflexivity|].
  rewrite append_cons. cbn [lacks]. rewrite IH. by rewrite andb_assoc.
Qed.

Lemma after_last_append c dir name :
  lacks c name = true -> Py.after_last c (dir ++ String c name) = name.
Proof.
  intros Hn. induction dir as [|a dir IH].
  - rewrite append_empty. cbn [Py.after_last]. rewrite Ascii.eqb_refl, existsb_lacks, Hn.
    reflexivity.
  - rewrite append_cons. cbn [Py.after_last]. rewrite existsb_lacks, lacks_append.
    cbn [lacks]. rewrite Ascii.eqb_refl, andb_false_r. cbn [negb andb].
    by destruct (Ascii.eqb a c).
Qed.

Lemma rfind_lacks c s : lacks c s = true -> Py.rfind c s = None.
Proof.
  induction s as [|a s IH]; [reflexivity|]. cbn [lacks Py.rfind].
  intros [Ha Hs]%andb_true_iff. rewrite (IH Hs).
  by destruct (Ascii.eqb a c).
Qed.

Lemma rfind_append c s t :
  lacks c t = true -> Py.rfind c (s ++ String c t) = Some (String.length s).
Proof.
  intros Ht. induction s as [|a s IH].
  - rewrite append_empty. cbn [Py.rfind String.length]. rewrite (rfind_lacks _ _ Ht).
    by rewrite Ascii.eqb_refl.
  - rewrite append_cons. cbn [Py.rfind String.length]. by rewrite IH.
Qed.

Lemma substring_prefix s t : substring 0 (String.length s) (s ++ t) = s.
Proof.
  induction s as [|a s IH].
  - rewrite append_empty. cbn [String.length]. by destruct t.
  - rewrite append_cons. cbn [String.length substring]. by rewrite IH.
Qed.

(** X28.  The job identifier of a key is the name of its file without the
    directories and without the last extension: keys that differ only in
    directory or extension name the same job. *)
Theorem job_id_of_path dir stem ext :
  lacks "/" stem = true ->
  Py.all_dots stem = false ->
  lacks "/" ext = true ->
  lacks "." ext = true ->
  job_id_of (dir ++ String "/" (stem ++ String "." ext)) = stem.
Proof.
  intros Hs Hd He1 He2. unfold job_id_of, Py.basename.
  rewrite after_last_append
    by (rewrite lacks_append; cbn [lacks]; rewrite Hs, He1; reflexivity).
  unfold Py.splitext_root.
  rewrite (rfind_lacks "/")
    by (rewrite lacks_append; cbn [lacks]; rewrite Hs, He1; reflexivity).
  rewrite (rfind_append ".") by done.
  rewrite decide_True by lia. rewrite Nat.sub_0_r, !substring_prefix, Hd.
  reflexivity.
Qed.

Lemma job_id_of_path_witness :
  job_id_of "uploads/2024/report.v2.csv" = "report.v2" /\
  job_id_of "archive/report.v2.txt" = "report.v2".
Proof.
  split.
  - exact (job_id_of_path "uploads/2024" "report.v2" "csv" eq_refl eq_refl eq_refl eq_refl).
  - exact (job_id_of_path "archive" "report.v2" "txt" eq_refl eq_refl eq_refl eq_refl).
Defined.

(* ===================================================================== *)
(** * The reader of the API *)
(* ===================================================================== *)

Lemma truthy_spec o : Py.truthy o = true <-> exists s, o = Some s /\ s ≠ EmptyString.
Proof.
  destruct o as [s|]; cbn.
  - rewrite negb_true_iff, String.eqb_neq. split; [eauto|]. by intros (? & [= <-] & ?).
  - split; [done|]. by intros (? & ? & ?).
Qed.

(** X25.  The reader only reads: whatever the request and the faults, the
    table, the bucket and the queue are as they were; and a request
    without an identifier is answered 400 without a call to the table. *)
Theorem reader_only_reads ev w :
  let r := ApiReader.lambda_handler ev w in
  table r.2 = table w /\ objects r.2 = objects w /\ queue r.2 = queue w /\
  (Py.truthy (ApiReader.requested ev) = false ->
   ApiReader.statusCode r.1 = 400%Z /\ r.2 = w).
Proof.
  intros r. subst r. unfold ApiReader.lambda_handler, ApiReader.requested, ApiReader.get_item.
  destruct (Py.truthy _) eqn:Hid; cbn [negb].
  - destruct (next_fault w); cbn [fst snd]; [done|].
    destruct (table w !! _) as [it|]; [destruct (bool_decide (it = ∅))|]; done.
  - done.
Qed.

(** X26.  The reader answers 200 exactly when the request names a job,
    the call to the table succeeds and the table holds a record of that
    job; the body is then that record, its numbers as JSON numbers. *)
Theorem reader_finds_the_record ev w :
  let r := ApiReader.lambda_handler ev w in
  (ApiReader.statusCode r.1 = 200%Z <->
   exists job_id it,
     ApiReader.requested ev = Some job_id /\ job_id ≠ EmptyString /\
     next_fault w = None /\ table w !! job_id = Some it /\ it ≠ ∅) /\
  (forall job_id it,
     ApiReader.requested ev = Some job_id -> job_id ≠ EmptyString ->
     next_fault w = None -> table w !! job_id = Some it -> it ≠ ∅ ->
     ApiReader.body r.1 = ApiReader.encode <$> it /\
     ApiReader.headers r.1 = Some {[ "Content-Type" := "application/json" ]}).
Proof.
  intros r. subst r. unfold ApiReader.lambda_handler, ApiReader.requested, ApiReader.get_item.
  destruct (default ∅ (ApiReader.pathParameters ev) !! "id") as [job_id|] eqn:Hid.
  2: { cbn. split; [|intros ? ? [=]]. split; [intros [=]|]. by intros (? & ? & [=] & _). }
  destruct (decide (job_id = EmptyString)) as [->|Hne].
  { cbn. split; [|by intros ? ? [= <-]]. split; [intros [=]|].
    by intros (? & ? & [= <-] & ? & _). }
  assert (Ht : Py.truthy (Some job_id) = true) by (apply truthy_spec; eauto).
  rewrite Ht. cbn [negb default from_option id].
  destruct (next_fault w) as [e|] eqn:Hf; cbn [fst snd].
  { cbn. split; [|by intros ? ? _ _ [=]]. split; [intros [=]|].
    by intros (? & ? & _ & _ & [=] & _). }
  destruct (table w !! job_id) as [it|] eqn:Hit.
  2: { cbn. split; [|intros ? ? [= <-] _ _ ?; congruence]. split; [intros [=]|].
       intros (? & ? & [= <-] & _ & _ & ? & _). congruence. }
  destruct (bool_decide (it = ∅)) eqn:Hempty.
  - apply bool_decide_eq_true in Hempty as ->. cbn. split.
    + split; [intros [=]|]. intros (? & ? & [= <-] & _ & _ & ? & ?). congruence.
    + intros ? ? [= <-] _ _ ? ?. congruence.
  - apply bool_decide_eq_false in Hempty. cbn. split.
    + split; [eauto 10|done].
    + intros ? ? [= <-] _ _ ? _. split; [congruence|done].
Qed.

Lemma reader_finds_the_record_witness :
  let r := ApiReader.lambda_handler (ApiReader.request "old") other_world in
  ApiReader.statusCode r.1 = 200%Z /\
  ApiReader.body r.1
    = {[ "jobId" := ApiReader.JString "old"; "status" := ApiReader.JString "FAILED" ]}.
Proof.
  intros r.
  pose proof (reader_finds_the_record (ApiReader.request "old") other_world) as [H1 H2].
  split.
  - apply H1. exists "old", {[ "jobId" := AS "old"; "status" := AS "FAILED" ]}.
    splits; [reflexivity|done|reflexivity|reflexivity|apply insert_non_empty].
  - destruct (H2 "old" {[ "jobId" := AS "old"; "status" := AS "FAILED" ]}) as [Hb _];
      [reflexivity|done|reflexivity|reflexivity|apply insert_non_empty|].
    subst r. rewrite Hb. vm_compute. reflexivity.
Defined.

(* ===================================================================== *)
(** * The reader after a conversion *)
(* ===================================================================== *)

(** What the reader answers about an attribute that the record holds. *)
Lemma reader_reports_attribute w job_id k a :
  job_id ≠ EmptyString ->
  next_fault w = None ->
  job_attr w job_id k = Some a ->
  let r := ApiReader.lambda_handler (ApiReader.request job_id) w in
  ApiReader.statusCode r.1 = 200%Z /\
  ApiReader.body r.1 !! k = Some (ApiReader.encode a).
Proof.
  intros Hne Hf Ha r. subst r.
  unfold ApiReader.lambda_handler, ApiReader.request, ApiReader.get_item, job_attr in *.
  cbn [ApiReader.pathParameters default from_option id]. rewrite lookup_singleton_eq.
  assert (Ht : Py.truthy (Some job_id) = true) by (apply truthy_spec; eauto).
  rewrite Ht, Hf. cbn [negb default from_option id fst snd].
  destruct (table w !! job_id) as [it|]; [|done]. cbn in Ha.
  rewrite bool_decide_eq_false_2 by (intros ->; by rewrite lookup_empty in Ha).
  cbn. split; [done|]. by rewrite lookup_fmap, Ha.
Qed.

(** The record that a conversion without failure leaves. *)
Lemma converter_record w ev m content data :
  reliable w ->
  delivered ev = Some m ->
  objects w !! (msg_bucket m, msg_key m) = Some content ->
  rows_list (Csv.rows (Csv.dict_reader content)) = Some data ->
  let w' := world_of (Processor.lambda_handler ev w) in
  job_attr w' (msg_jobId m) "status" = Some (AS "COMPLETED") /\
  job_attr w' (msg_jobId m) "rowCount" = Some (AN (Z.of_nat (length data))) /\
  job_attr w' (msg_jobId m) "errorCount"
    = Some (AN (Z.of_nat (length (filter (fun row => ¬ row_valid row) data)))) /\
  job_attr w' (msg_jobId m) "s3OutputPrefix"
    = Some (AS (PROCESSED_PREFIX w ++ msg_jobId m ++ "/")).
Proof.
  intros Hrel Hev Hobj Hd w'. subst w'.
  assert (Hc : Processor.convert content
               = inr (record_of <$> filter row_valid data,
                      length (filter (fun row => ¬ row_valid row) data))).
  { unfold Processor.convert. by rewrite (processor_process_rows _ data). }
  pose proof (filter_partition_length row_valid data) as Hlen.
  rewrite <- (length_fmap record_of (filter row_valid data)) in Hlen.
  clear Hd. unfold job_attr. reliable_world w. converter_path.
  rewrite <- Hlen. clear.
  generalize (length (filter (fun row => ¬ row_valid row) data)). intros n.
  generalize (Processor.summary (length data) n). intros text.
  splits; solve_attr.
Qed.

(** X27.  After a conversion without failure, a request for the job (in a
    later invocation, whatever its clock) is answered 200 with the status
    COMPLETED, the number of data rows and of rejected rows as JSON
    numbers, and the output prefix of the job. *)
Theorem reader_after_conversion w ev m content data clk uuid :
  reliable w ->
  delivered ev = Some m ->
  msg_jobId m ≠ EmptyString ->
  objects w !! (msg_bucket m, msg_key m) = Some content ->
  rows_list (Csv.rows (Csv.dict_reader content)) = Some data ->
  let w' := restart [] clk uuid (world_of (Processor.lambda_handler ev w)) in
  let r := ApiReader.lambda_handler (ApiReader.request (msg_jobId m)) w' in
  ApiReader.statusCode r.1 = 200%Z /\
  ApiReader.body r.1 !! "status" = Some (ApiReader.JString "COMPLETED") /\
  ApiReader.body r.1 !! "rowCount"
    = Some (ApiReader.JNumber (Z.of_nat (length data))) /\
  ApiReader.body r.1 !! "errorCount"
    = Some (ApiReader.JNumber
              (Z.of_nat (length (filter (fun row => ¬ row_valid row) data)))) /\
  ApiReader.body r.1 !! "s3OutputPrefix"
    = Some (ApiReader.JString (PROCESSED_PREFIX w ++ msg_jobId m ++ "/")).
Proof.
  intros Hrel Hev Hne Hobj Hd w' r.
  destruct (converter_record w ev m content data Hrel Hev Hobj Hd) as (H1 & H2 & H3 & H4).
  assert (Hf : next_fault w' = None) by reflexivity.
  assert (Hattr : forall k a,
             job_attr (world_of (Processor.lambda_handler ev w)) (msg_jobId m) k = Some a ->
             ApiReader.statusCode r.1 = 200%Z /\
             ApiReader.body r.1 !! k = Some (ApiReader.encode a)).
  { intros k a Ha. by apply reader_reports_attribute. }
  splits; [exact (proj1 (Hattr _ _ H1))|exact (proj2 (Hattr _ _ H1))
          |exact (proj2 (Hattr _ _ H2))|exact (proj2 (Hattr _ _ H3))
          |exact (proj2 (Hattr _ _ H4))].
Qed.

Lemma reader_after_conversion_witness :
  let w' := restart [] later_clock "another-uuid"
              (world_of (Processor.lambda_handler (delivery message_a) (uploaded file_C))) in
  let r := ApiReader.lambda_handler (ApiReader.request "a") w' in
  ApiReader.body r.1 !! "status" = Some (ApiReader.JString "COMPLETED") /\
  ApiReader.body r.1 !! "errorCount" = Some (ApiReader.JNumber 1).
Proof.
  intros w' r.
  pose proof (reader_after_conversion (uploaded file_C) (delivery message_a) message_a file_C
                [Csv.dict_row header_D ["1"; EmptyString; "2024-01-01T00:00:00Z"]]
                later_clock "another-uuid" eq_refl eq_refl) as H.
  destruct H as (_ & H2 & _ & H4 & _); [done|reflexivity|vm_compute; reflexivity|].
  split; [exact H2|exact H4].
Defined.

(* ===================================================================== *)
(** * The record of a file that is uploaded again *)
(* ===================================================================== *)

(** The attribute is none of those that the Validator writes. *)
Ltac unwritten_by_validator :=
  match goal with
  | H : _ ∉ _ |- _ =>
      unfold validator_attributes in H; rewrite !not_elem_of_cons in H; destruct_and!
  end;
  first [ congruence
        | repeat (rewrite lookup_insert_ne by congruence);
          apply lookup_singleton_ne; congruence ].

(** X29.  The Validator replaces the record of its job: once its first
    write succeeds, the record holds no attribute but those that the
    Validator writes, whatever it held before and whatever happens next;
    the counts and the output prefix of an earlier run of the same file
    name are gone. *)
Theorem upload_resets_the_record w ev bucket key k :
  s3_location ev = Some (bucket, key) ->
  next_fault w = None ->
  k ∉ validator_attributes ->
  job_attr (world_of (Validator.lambda_handler ev w)) (job_id_of key) k = None.
Proof.
  intros Hloc Hf Hk. unfold job_attr, job_id_of, s3_location in *.
  wp_handler. wp_run.
  all: try by excluded.
  all: tidy.
  all: rewrite ?job_attr_updated_keep by unwritten_by_validator.
  all: rewrite lookup_insert_eq; cbn [mbind option_bind]; unwritten_by_validator.
Qed.

Lemma upload_resets_the_record_witness :
  let w := restart [] later_clock "another-uuid"
             (world_of (Processor.lambda_handler (delivery message_a) (uploaded file_A))) in
  job_attr w "a" "rowCount" = Some (AN 1) /\
  job_attr (world_of (Validator.lambda_handler upload_a w)) "a" "rowCount" = None.
Proof.
  intros w. split; [vm_compute; reflexivity|].
  apply (upload_resets_the_record w upload_a "ingest" "uploads/a.csv" "rowCount");
    [reflexivity|reflexivity|].
  apply (bool_decide_unpack _). vm_compute. reflexivity.
Defined.

(* ===================================================================== *)
(** * From the upload to the output *)
(* ===================================================================== *)

(** X30.  The two handlers in sequence.  When no call fails, the header
    of the uploaded file has the required columns and its rows are read,
    the Validator queues the message of the job, and the Converter, given
    that message in a later invocation, ends the job COMPLETED with the
    number of data rows, the output under the job's prefix, and the
    source and the start time that the Validator recorded. *)
Theorem pipeline_completes w ev bucket key content header data clk uuid :
  reliable w ->
  s3_location ev = Some (bucket, key) ->
  objects w !! (bucket, key) = Some content ->
  Csv.fieldnames (Csv.dict_reader content) = inr header ->
  missing_columns (default [] header) = [] ->
  rows_list (Csv.rows (Csv.dict_reader content)) = Some data ->
  let job_id := job_id_of key in
  let m := mkMessage job_id bucket key in
  let v := Validator.lambda_handler ev w in
  let p := Processor.lambda_handler (delivery m) (restart [] clk uuid (world_of v)) in
  queue (world_of v) = (queue w ++ [m])%list /\
  job_status (world_of p) job_id = Some "COMPLETED" /\
  job_attr (world_of p) job_id "rowCount" = Some (AN (Z.of_nat (length data))) /\
  objects (world_of p) !! output_location w m
    = Some (Json.dumps_indent2 (record_of <$> filter row_valid data)) /\
  job_attr (world_of p) job_id "s3Source" = Some (AS ("s3://" ++ bucket ++ "/" ++ key)) /\
  job_attr (world_of p) job_id "startedAt" = Some (AS (clock w (ticks w))).
Proof.
  intros Hrel Hloc Hobj Hh Hm Hd job_id m v p. subst p v m job_id.
  assert (Hmiss : bool_decide (missing_columns (default [] header) ≠ []) = false)
    by (apply bool_decide_eq_false_2; intros Hn; by apply Hn).
  assert (Hc : Processor.convert content
               = inr (record_of <$> filter row_valid data,
                      length (filter (fun row => ¬ row_valid row) data))).
  { unfold Processor.convert. by rewrite (processor_process_rows _ data). }
  pose proof (filter_partition_length row_valid data) as Hlen.
  rewrite <- (length_fmap record_of (filter row_valid data)) in Hlen.
  clear Hm Hd. unfold job_status, job_attr, output_location, job_id_of, s3_location in *.
  reliable_world w.
  lazymatch goal with
  | |- context [world_of (Validator.lambda_handler ?e (mkWorld ?t ?o ?q ?f ?c ?k ?u ?x))] =>
      wp_of (Validator.lambda_handler e) (mkWorld t o q f c k u x)
  end.
  unfold Validator.lambda_handler. wp_run.
  all: try by excluded.
  tidy. wp_handler. wp_run.
  all: try by excluded.
  tidy. rewrite <- Hlen. clear.
  generalize (length (filter (fun row => ¬ row_valid row) data)). intros n.
  generalize (Processor.summary (length data) n). intros text.
  splits; [reflexivity|solve_status|solve_attr|apply lookup_insert_eq| |].
  all: rewrite !job_attr_updated_keep by (first [apply lookup_empty | by vm_compute]).
  all: rewrite lookup_insert_eq; reflexivity.
Qed.

Lemma pipeline_completes_witness :
  let v := Validator.lambda_handler upload_a (uploaded file_A) in
  let p := Processor.lambda_handler (delivery message_a)
             (restart [] later_clock "another-uuid" (world_of v)) in
  queue (world_of v) = [message_a] /\
  job_status (world_of p) "a" = Some "COMPLETED" /\
  job_attr (world_of p) "a" "s3Source" = Some (AS "s3://ingest/uploads/a.csv").
Proof.
  intros v p.
  pose proof (pipeline_completes (uploaded file_A) upload_a "ingest" "uploads/a.csv" file_A
                (Some header_D) [Csv.dict_row header_D ["1"; "10"; "2024-01-01T00:00:00Z"]]
                later_clock "another-uuid" eq_refl eq_refl eq_refl eq_refl eq_refl) as H.
  destruct H as (H1 & H2 & _ & _ & H5 & _); [vm_compute; reflexivity|].
  splits; [exact H1|exact H2|exact H5].
Defined.
